(** * MultiButton: debouncing filter, gesture automaton and button registry

    A shallow embedding of [multi_button.h] and [multi_button.c], with the
    properties of the tick handler and of the start/stop registry.
    Conventions:
    - Every bit-field of [struct _Button] is a [Z]; the truncation a C store
      into the field performs is written out ([mod 2^w]) at each store whose
      right-hand side is not a constant that fits.
    - A nullable [Button*] whose identity does not matter is an
      [option Button]; the registry, where identity matters, works on
      addresses and a heap.
    - The HAL read [handle->hal_button_level(handle->button_id)] is the
      caller's code: the level it returns in a tick is an argument of the
      handler.
    - Callbacks are the caller's code as well and are taken not to write to
      the instance; each expansion of [EVENT_CB] is recorded in a log. *)

From Stdlib Require Import ZArith List Lia Bool.
From stdpp Require Import base option list gmap.
Import ListNotations.

Local Open Scope Z_scope.

(** * The program *)

(** ** Configuration constants ([multi_button.h]) *)

Definition TICKS_INTERVAL : Z := 5.
Definition DEBOUNCE_TICKS : Z := 3.
Definition SHORT_TICKS : Z := 300 / TICKS_INTERVAL.
Definition LONG_TICKS : Z := 1000 / TICKS_INTERVAL.
Definition PRESS_REPEAT_MAX_NUM : Z := 15.

(** ** Enumerations *)

Inductive ButtonEvent : Set :=
| BTN_PRESS_DOWN
| BTN_PRESS_UP
| BTN_PRESS_REPEAT
| BTN_SINGLE_CLICK
| BTN_DOUBLE_CLICK
| BTN_LONG_PRESS_START
| BTN_LONG_PRESS_HOLD
| BTN_EVENT_COUNT
| BTN_NONE_PRESS.

(** The integer value of an enumerator, as used by the [(uint8_t)] casts and
    by the index of [cb]. *)
Definition ev_code (e : ButtonEvent) : Z :=
  match e with
  | BTN_PRESS_DOWN => 0
  | BTN_PRESS_UP => 1
  | BTN_PRESS_REPEAT => 2
  | BTN_SINGLE_CLICK => 3
  | BTN_DOUBLE_CLICK => 4
  | BTN_LONG_PRESS_START => 5
  | BTN_LONG_PRESS_HOLD => 6
  | BTN_EVENT_COUNT => 7
  | BTN_NONE_PRESS => 8
  end.

#[global] Instance ButtonEvent_eq_dec : EqDecision ButtonEvent.
Proof. solve_decision. Defined.

(** [ButtonState]; the [state] field is a 3-bit integer, so it can also hold
    5, 6 and 7, which name no state. *)
Definition BTN_STATE_IDLE : Z := 0.
Definition BTN_STATE_PRESS : Z := 1.
Definition BTN_STATE_RELEASE : Z := 2.
Definition BTN_STATE_REPEAT : Z := 3.
Definition BTN_STATE_LONG_HOLD : Z := 4.

(** ** The instance *)

(** Addresses of [Button] objects; [None] is [NULL]. *)
Definition loc := positive.
Definition ptr := option loc.

(** A registered callback is known by its address only. *)
Definition BtnCallback := positive.

Record Button : Type := mkButton {
  ticks : Z;            (* uint16_t *)
  repeat : Z;           (* uint8_t : 4 *)
  event : Z;            (* uint8_t : 4 *)
  state : Z;            (* uint8_t : 3 *)
  debounce_cnt : Z;     (* uint8_t : 3 *)
  active_level : Z;     (* uint8_t : 1 *)
  button_level : Z;     (* uint8_t : 1 *)
  button_id : Z;        (* uint8_t *)
  cb : ButtonEvent -> option BtnCallback;  (* NULL is None *)
  next : ptr
}.

(** Field stores. *)
Definition set_ticks (v : Z) (h : Button) : Button :=
  mkButton v (repeat h) (event h) (state h) (debounce_cnt h)
           (active_level h) (button_level h) (button_id h) (cb h) (next h).
Definition set_repeat (v : Z) (h : Button) : Button :=
  mkButton (ticks h) v (event h) (state h) (debounce_cnt h)
           (active_level h) (button_level h) (button_id h) (cb h) (next h).
Definition set_event (v : Z) (h : Button) : Button :=
  mkButton (ticks h) (repeat h) v (state h) (debounce_cnt h)
           (active_level h) (button_level h) (button_id h) (cb h) (next h).
Definition set_state (v : Z) (h : Button) : Button :=
  mkButton (ticks h) (repeat h) (event h) v (debounce_cnt h)
           (active_level h) (button_level h) (button_id h) (cb h) (next h).
Definition set_debounce_cnt (v : Z) (h : Button) : Button :=
  mkButton (ticks h) (repeat h) (event h) (state h) v
           (active_level h) (button_level h) (button_id h) (cb h) (next h).
Definition set_button_level (v : Z) (h : Button) : Button :=
  mkButton (ticks h) (repeat h) (event h) (state h) (debounce_cnt h)
           (active_level h) v (button_id h) (cb h) (next h).
Definition set_cb (ev : ButtonEvent) (f : option BtnCallback) (h : Button) : Button :=
  mkButton (ticks h) (repeat h) (event h) (state h) (debounce_cnt h)
           (active_level h) (button_level h) (button_id h)
           (fun e => if decide (e = ev) then f else cb h e) (next h).
Definition set_next (p : ptr) (h : Button) : Button :=
  mkButton (ticks h) (repeat h) (event h) (state h) (debounce_cnt h)
           (active_level h) (button_level h) (button_id h) (cb h) p.

(** ** Per-instance API *)

(** What [button_init] writes: [memset] to zero, then the five stores.  The
    HAL function pointer is not stored in the model, since the level it
    returns is an input of the handler. *)
Definition init_button (active_level0 button_id0 : Z) : Button :=
  mkButton 0 0 (ev_code BTN_NONE_PRESS) BTN_STATE_IDLE 0
           (active_level0 mod 2) (if active_level0 =? 0 then 1 else 0)
           button_id0 (fun _ => None) None.

(** [button_init]; [pin_level] is the HAL function pointer, [None] when it
    is [NULL].  The result is the new content of the object, [None] when the
    call returns before writing anything. *)
Definition button_init (handle : option Button) (pin_level : option positive)
    (active_level0 button_id0 : Z) : option Button :=
  match handle, pin_level with
  | Some _, Some _ => Some (init_button active_level0 button_id0)
  | _, _ => None
  end.

(** [button_attach] and [button_detach]; [None] when nothing is written. *)
Definition button_attach (handle : option Button) (ev : ButtonEvent)
    (f : option BtnCallback) : option Button :=
  match handle with
  | None => None
  | Some h =>
      if ev_code BTN_EVENT_COUNT <=? ev_code ev then None
      else Some (set_cb ev f h)
  end.

Definition button_detach (handle : option Button) (ev : ButtonEvent)
    : option Button :=
  match handle with
  | None => None
  | Some h =>
      if ev_code BTN_EVENT_COUNT <=? ev_code ev then None
      else Some (set_cb ev None h)
  end.

(** [button_get_event]: the value of the returned enumerator. *)
Definition button_get_event (handle : option Button) : Z :=
  match handle with
  | None => ev_code BTN_NONE_PRESS
  | Some h => event h
  end.

Definition button_get_repeat_count (handle : option Button) : Z :=
  match handle with
  | None => 0
  | Some h => repeat h
  end.

(** [button_reset]; [None] when nothing is written. *)
Definition button_reset (handle : option Button) : option Button :=
  match handle with
  | None => None
  | Some h =>
      let h := set_state BTN_STATE_IDLE h in
      let h := set_ticks 0 h in
      let h := set_repeat 0 h in
      let h := set_event (ev_code BTN_NONE_PRESS) h in
      Some (set_debounce_cnt 0 h)
  end.

Definition button_is_pressed (handle : option Button) : Z :=
  match handle with
  | None => -1
  | Some h => if button_level h =? active_level h then 1 else 0
  end.

(** ** The tick handler *)

(** One expansion of [EVENT_CB(ev)]: the event, the slot [handle->cb[ev]]
    that is tested ([None]: nothing is called) and the instance as the
    callback is handed it. *)
Record Fire : Type := mkFire {
  fire_ev : ButtonEvent;
  fire_cb : option BtnCallback;
  fire_handle : Button
}.

Definition EVENT_CB (ev : ButtonEvent) (handle : Button) : list Fire :=
  [mkFire ev (cb handle ev) handle].

(** The events of a log, and the calls that are really made. *)
Definition fired (log : list Fire) : list ButtonEvent := map fire_ev log.
Definition invoked (log : list Fire) : list Fire :=
  filter (fun f => is_Some (fire_cb f)) log.

(** [if (handle->state > BTN_STATE_IDLE) handle->ticks++;] *)
Definition count_tick (h : Button) : Button :=
  if BTN_STATE_IDLE <? state h then set_ticks ((ticks h + 1) mod 65536) h
  else h.

(** The debounce block.  [++(handle->debounce_cnt)] stores into a 3-bit
    field and yields the stored value; [button_level] is a 1-bit field. *)
Definition debounce (read_gpio_level : Z) (h : Button) : Button :=
  if negb (read_gpio_level =? button_level h) then
    let h := set_debounce_cnt ((debounce_cnt h + 1) mod 8) h in
    if DEBOUNCE_TICKS <=? debounce_cnt h then
      let h := set_button_level (read_gpio_level mod 2) h in
      set_debounce_cnt 0 h
    else h
  else set_debounce_cnt 0 h.

(** The [switch] on [handle->state]. *)
Definition state_machine (h : Button) : Button * list Fire :=
  match state h with
  | 0 (* BTN_STATE_IDLE *) =>
      if button_level h =? active_level h then
        let h := set_event (ev_code BTN_PRESS_DOWN) h in
        let l1 := EVENT_CB BTN_PRESS_DOWN h in
        let h := set_ticks 0 h in
        let h := set_repeat 1 h in
        let h := set_state BTN_STATE_PRESS h in
        (h, l1)
      else
        (set_event (ev_code BTN_NONE_PRESS) h, [])
  | 1 (* BTN_STATE_PRESS *) =>
      if negb (button_level h =? active_level h) then
        let h := set_event (ev_code BTN_PRESS_UP) h in
        let l1 := EVENT_CB BTN_PRESS_UP h in
        let h := set_ticks 0 h in
        let h := set_state BTN_STATE_RELEASE h in
        (h, l1)
      else if LONG_TICKS <? ticks h then
        let h := set_event (ev_code BTN_LONG_PRESS_START) h in
        let l1 := EVENT_CB BTN_LONG_PRESS_START h in
        let h := set_state BTN_STATE_LONG_HOLD h in
        (h, l1)
      else (h, [])
  | 2 (* BTN_STATE_RELEASE *) =>
      if button_level h =? active_level h then
        let h := set_event (ev_code BTN_PRESS_DOWN) h in
        let l1 := EVENT_CB BTN_PRESS_DOWN h in
        let h := if repeat h <? PRESS_REPEAT_MAX_NUM
                 then set_repeat ((repeat h + 1) mod 16) h else h in
        let l2 := EVENT_CB BTN_PRESS_REPEAT h in
        let h := set_ticks 0 h in
        let h := set_state BTN_STATE_REPEAT h in
        (h, l1 ++ l2)
      else if SHORT_TICKS <? ticks h then
        let '(h, l1) :=
          if repeat h =? 1 then
            let h := set_event (ev_code BTN_SINGLE_CLICK) h in
            (h, EVENT_CB BTN_SINGLE_CLICK h)
          else if repeat h =? 2 then
            let h := set_event (ev_code BTN_DOUBLE_CLICK) h in
            (h, EVENT_CB BTN_DOUBLE_CLICK h)
          else (h, []) in
        let h := set_state BTN_STATE_IDLE h in
        (h, l1)
      else (h, [])
  | 3 (* BTN_STATE_REPEAT *) =>
      if negb (button_level h =? active_level h) then
        let h := set_event (ev_code BTN_PRESS_UP) h in
        let l1 := EVENT_CB BTN_PRESS_UP h in
        if ticks h <? SHORT_TICKS then
          let h := set_ticks 0 h in
          let h := set_state BTN_STATE_RELEASE h in
          (h, l1)
        else
          (set_state BTN_STATE_IDLE h, l1)
      else if SHORT_TICKS <? ticks h then
        (set_state BTN_STATE_PRESS h, [])
      else (h, [])
  | 4 (* BTN_STATE_LONG_HOLD *) =>
      if button_level h =? active_level h then
        let h := set_event (ev_code BTN_LONG_PRESS_HOLD) h in
        (h, EVENT_CB BTN_LONG_PRESS_HOLD h)
      else
        let h := set_event (ev_code BTN_PRESS_UP) h in
        let l1 := EVENT_CB BTN_PRESS_UP h in
        (set_state BTN_STATE_IDLE h, l1)
  | _ =>
      (set_state BTN_STATE_IDLE h, [])
  end.

(** [button_handler]: read the level, count the tick, debounce, classify. *)
Definition button_handler (read_gpio_level : Z) (h : Button)
    : Button * list Fire :=
  state_machine (debounce read_gpio_level (count_tick h)).

(** ** The registry: [head_handle] and the [next] links *)

(** The memory of the program as far as the registry is concerned: the
    static [head_handle] and the [Button] objects by address. *)
Record Registry : Type := mkRegistry {
  head_handle : ptr;
  heap : gmap loc Button
}.

(** The [while (target)] loop of [button_start]: [Some true] when it returns
    -1 from inside the loop, [Some false] when it runs to the end of the
    list.  [fuel] bounds the iterations: the C loop does not end on a cyclic
    list.  [None] is out of fuel, or a read of an object that is not there. *)
Fixpoint start_scan (fuel : nat) (m : gmap loc Button) (target : ptr)
    (handle : loc) : option bool :=
  match target with
  | None => Some false
  | Some t =>
      if decide (t = handle) then Some true
      else
        match fuel with
        | O => None
        | S fuel' =>
            match m !! t with
            | Some b => start_scan fuel' m (next b) handle
            | None => None
            end
        end
  end.

(** [button_start]: the returned status and the memory after the call. *)
Definition button_start (fuel : nat) (handle : ptr) (r : Registry)
    : option (Z * Registry) :=
  match handle with
  | None => Some (-2, r)
  | Some p =>
      match start_scan fuel (heap r) (head_handle r) p with
      | None => None
      | Some true => Some (-1, r)
      | Some false =>
          match heap r !! p with
          | Some b =>
              Some (0, mkRegistry (Some p)
                         (<[p := set_next (head_handle r) b]> (heap r)))
          | None => None
          end
      end
  end.

(** The [Button**] cursor of [button_stop]: [&head_handle] or
    [&entry->next]. *)
Inductive link : Type :=
| HeadLink
| NextLink (entry : loc).

Definition read_link (r : Registry) (curr : link) : option ptr :=
  match curr with
  | HeadLink => Some (head_handle r)
  | NextLink e => next <$> heap r !! e
  end.

Definition write_link (r : Registry) (curr : link) (v : ptr) : Registry :=
  match curr with
  | HeadLink => mkRegistry v (heap r)
  | NextLink e => mkRegistry (head_handle r) (alter (set_next v) e (heap r))
  end.

(** The [for] loop of [button_stop], with the same [fuel] convention. *)
Fixpoint stop_loop (fuel : nat) (r : Registry) (curr : link) (handle : loc)
    : option Registry :=
  match read_link r curr with
  | None => None
  | Some None => Some r
  | Some (Some entry) =>
      if decide (entry = handle) then
        match heap r !! entry with
        | Some b =>
            let r := write_link r curr (next b) in
            Some (mkRegistry (head_handle r)
                    (alter (set_next None) entry (heap r)))
        | None => None
        end
      else
        match fuel with
        | O => None
        | S fuel' => stop_loop fuel' r (NextLink entry) handle
        end
  end.

Definition button_stop (fuel : nat) (handle : ptr) (r : Registry)
    : option Registry :=
  match handle with
  | None => Some r
  | Some p => stop_loop fuel r HeadLink p
  end.

(** [button_ticks]: the handler applied to every member in list order;
    [read a] is the level the HAL of the object at [a] returns in this
    tick.  The result is the memory and the log of each member. *)
Fixpoint button_ticks_from (fuel : nat) (read : loc -> Z) (m : gmap loc Button)
    (target : ptr) : option (gmap loc Button * list (loc * list Fire)) :=
  match target with
  | None => Some (m, [])
  | Some t =>
      match fuel with
      | O => None
      | S fuel' =>
          match m !! t with
          | Some b =>
              let '(b', log) := button_handler (read t) b in
              match button_ticks_from fuel' read (<[t := b']> m) (next b') with
              | Some (m', logs) => Some (m', (t, log) :: logs)
              | None => None
              end
          | None => None
          end
      end
  end.

Definition button_ticks (fuel : nat) (read : loc -> Z) (r : Registry)
    : option (Registry * list (loc * list Fire)) :=
  match button_ticks_from fuel read (heap r) (head_handle r) with
  | Some (m', logs) => Some (mkRegistry (head_handle r) m', logs)
  | None => None
  end.

(** * Notions used in the statements *)

(** The ranges the bit-field widths give the fields. *)
Record in_range (h : Button) : Prop := mk_in_range {
  ticks_range : 0 <= ticks h < 65536;
  repeat_range : 0 <= repeat h < 16;
  event_range : 0 <= event h < 16;
  state_range : 0 <= state h < 8;
  debounce_range : 0 <= debounce_cnt h < 8;
  active_range : 0 <= active_level h < 2;
  level_range : 0 <= button_level h < 2;
  id_range : 0 <= button_id h < 256
}.

(** The instance after a tick, and the events of a tick. *)
Definition tick (read_gpio_level : Z) (h : Button) : Button :=
  fst (button_handler read_gpio_level h).
Definition tick_events (read_gpio_level : Z) (h : Button) : list ButtonEvent :=
  fired (snd (button_handler read_gpio_level h)).

(** The handler driven by a sequence of levels, one per tick: the final
    instance and the events of each tick. *)
Fixpoint run (levels : list Z) (h : Button) : Button * list (list ButtonEvent) :=
  match levels with
  | [] => (h, [])
  | x :: xs =>
      let '(h', evs) := run xs (tick x h) in
      (h', tick_events x h :: evs)
  end.

Definition run_state (levels : list Z) (h : Button) : Button := fst (run levels h).
Definition run_events (levels : list Z) (h : Button) : list (list ButtonEvent) :=
  snd (run levels h).

(** The instance as the [switch] sees it: tick counted, level debounced. *)
Definition debounced (read_gpio_level : Z) (h : Button) : Button :=
  debounce read_gpio_level (count_tick h).

(** Instances reached from [button_init] by ticks that read a binary level. *)
Inductive reachable : Button -> Prop :=
| reachable_init a i :
    0 <= a < 256 -> 0 <= i < 256 -> reachable (init_button a i)
| reachable_tick x h :
    reachable h -> x = 0 \/ x = 1 -> reachable (tick x h).

(** The transitions of one tick: source and target state. *)
Definition transition (x : Z) (h : Button) (from to : Z) : Prop :=
  state h = from /\ state (tick x h) = to.

(** A level of the binary line. *)
Definition binary (z : Z) : Prop := z = 0 \/ z = 1.

(** How many of the most recent samples ([recent] lists the newest first)
    differ from [lvl] in a row. *)
Fixpoint streak (lvl : Z) (recent : list Z) : nat :=
  match recent with
  | [] => 0%nat
  | y :: ys => if y =? lvl then 0%nat else S (streak lvl ys)
  end.

(** The debounced level is the active level in every tick of the run. *)
Fixpoint level_stays_active (levels : list Z) (h : Button) : Prop :=
  match levels with
  | [] => True
  | x :: xs =>
      button_level (debounced x h) = active_level h /\
      level_stays_active xs (tick x h)
  end.

(** The events of tick number [i] (from 0) of a press that is held, when the
    long-press threshold is passed in tick number [k]. *)
Definition long_press_events (k i : nat) : list ButtonEvent :=
  if (i <? k)%nat then []
  else if (i =? k)%nat then [BTN_LONG_PRESS_START]
  else [BTN_LONG_PRESS_HOLD].

(** The active set: the addresses met from [p] along [next] up to [NULL]. *)
Fixpoint is_list (m : gmap loc Button) (p : ptr) (l : list loc) : Prop :=
  match l with
  | [] => p = None
  | a :: l' => p = Some a /\ exists b, m !! a = Some b /\ is_list m (next b) l'
  end.

Definition active_set (r : Registry) (l : list loc) : Prop :=
  is_list (heap r) (head_handle r) l.

(** The objects of [r'] are those of [r], up to their [next] fields. *)
Definition same_but_next (r r' : Registry) : Prop :=
  forall c, match heap r !! c, heap r' !! c with
            | Some b, Some b' => b' = set_next (next b') b
            | None, None => True
            | _, _ => False
            end.

(** A memory with three objects, two of them registered: 2 -> 1 -> NULL. *)
Definition sample_registry : Registry :=
  let b := init_button 1 0 in
  mkRegistry (Some 2%positive)
    (<[2%positive := set_next (Some 1%positive) b]>
       (<[1%positive := b]> (<[3%positive := b]> ∅))).

(** ** Notions used in the further properties *)

(** A per-instance API call applied to the object at [handle]: the call sees
    the object ([None] for [NULL]) and the memory takes what it writes. *)
Definition update_object (op : option Button -> option Button) (handle : ptr)
    (r : Registry) : Registry :=
  match handle with
  | None => r
  | Some a =>
      match heap r !! a with
      | Some b =>
          match op (Some b) with
          | Some b' => mkRegistry (head_handle r) (<[a := b']> (heap r))
          | None => r
          end
      | None => r
      end
  end.

(** The fields the debounce block and the [switch] read and write. *)
Definition automaton (h : Button) : Z * Z * Z * Z * Z * Z * Z :=
  (ticks h, repeat h, event h, state h, debounce_cnt h, active_level h,
   button_level h).

(** The states in which the key is taken to be down. *)
Definition pressed_state (s : Z) : Prop :=
  s = BTN_STATE_PRESS \/ s = BTN_STATE_REPEAT \/ s = BTN_STATE_LONG_HOLD.

(** The tick counter is below the threshold it is compared with, in the
    three states that compare it. *)
Definition ticks_bounded (h : Button) : Prop :=
  0 <= ticks h < 65536 /\
  (state h = BTN_STATE_PRESS -> ticks h <= LONG_TICKS) /\
  (state h = BTN_STATE_RELEASE -> ticks h <= SHORT_TICKS) /\
  (state h = BTN_STATE_REPEAT -> ticks h <= SHORT_TICKS).

(** The debounced level is not the active level in any tick of the run. *)
Fixpoint level_stays_inactive (levels : list Z) (h : Button) : Prop :=
  match levels with
  | [] => True
  | x :: xs =>
      button_level (debounced x h) <> active_level h /\
      level_stays_inactive xs (tick x h)
  end.

(** A sequence of registry calls. *)
Inductive reg_op : Type :=
| OpStart (h : loc)
| OpStop (h : loc).

Fixpoint run_ops (fuel : nat) (ops : list reg_op) (r : Registry)
    : option Registry :=
  match ops with
  | [] => Some r
  | OpStart h :: ops' =>
      match button_start fuel (Some h) r with
      | Some (_, r') => run_ops fuel ops' r'
      | None => None
      end
  | OpStop h :: ops' =>
      match button_stop fuel (Some h) r with
      | Some r' => run_ops fuel ops' r'
      | None => None
      end
  end.

(** The registry calls on the active set as a list, newest first. *)
Definition list_op (o : reg_op) (l : list loc) : list loc :=
  match o with
  | OpStart h => if decide (h ∈ l) then l else h :: l
  | OpStop h => filter (λ a, a ≠ h) l
  end.

Definition op_handle (o : reg_op) : loc :=
  match o with
  | OpStart h => h
  | OpStop h => h
  end.

(** [pressed_state] as a boolean. *)
Definition pressedb (s : Z) : bool :=
  (s =? BTN_STATE_PRESS) || (s =? BTN_STATE_REPEAT)
  || (s =? BTN_STATE_LONG_HOLD).

(** PressDown and PressUp take turns in an event stream: [down] tells
    whether a PressDown is open; the result is [None] when a PressDown
    follows a PressDown or a PressUp comes without one, and otherwise tells
    whether a PressDown is open at the end. *)
Fixpoint alternates (down : bool) (evs : list ButtonEvent) : option bool :=
  match evs with
  | [] => Some down
  | BTN_PRESS_DOWN :: evs' => if down then None else alternates true evs'
  | BTN_PRESS_UP :: evs' => if down then alternates false evs' else None
  | _ :: evs' => alternates down evs'
  end.

(** * Properties *)

(** ** Basic facts about the handler *)

Lemma button_handler_eq x h :
  button_handler x h = state_machine (debounced x h).
Proof. reflexivity. Qed.

Lemma debounce_state x h : state (debounce x h) = state h.
Proof.
  unfold debounce.
  destruct (negb (x =? button_level h)); [|reflexivity].
  cbn. destruct (DEBOUNCE_TICKS <=? _); reflexivity.
Qed.

Lemma count_tick_state h : state (count_tick h) = state h.
Proof. unfold count_tick. destruct (_ <? _); reflexivity. Qed.

Lemma debounced_state x h : state (debounced x h) = state h.
Proof. unfold debounced. now rewrite debounce_state, count_tick_state. Qed.

Lemma debounce_ticks x h : ticks (debounce x h) = ticks h.
Proof.
  unfold debounce.
  destruct (negb (x =? button_level h)); [|reflexivity].
  cbn. destruct (DEBOUNCE_TICKS <=? _); reflexivity.
Qed.

Lemma debounced_ticks x h :
  ticks (debounced x h) =
  if BTN_STATE_IDLE <? state h then (ticks h + 1) mod 65536 else ticks h.
Proof.
  unfold debounced. rewrite debounce_ticks. unfold count_tick.
  destruct (_ <? _); reflexivity.
Qed.

Lemma debounced_repeat x h : repeat (debounced x h) = repeat h.
Proof.
  unfold debounced, debounce, count_tick.
  destruct (_ <? _); cbn; destruct (negb _); cbn;
    try destruct (DEBOUNCE_TICKS <=? _); reflexivity.
Qed.

Lemma debounced_event x h : event (debounced x h) = event h.
Proof.
  unfold debounced, debounce, count_tick.
  destruct (_ <? _); cbn; destruct (negb _); cbn;
    try destruct (DEBOUNCE_TICKS <=? _); reflexivity.
Qed.

Lemma debounced_active_level x h :
  active_level (debounced x h) = active_level h.
Proof.
  unfold debounced, debounce, count_tick.
  destruct (_ <? _); cbn; destruct (negb _); cbn;
    try destruct (DEBOUNCE_TICKS <=? _); reflexivity.
Qed.

Lemma debounced_cb x h : cb (debounced x h) = cb h.
Proof.
  unfold debounced, debounce, count_tick.
  destruct (_ <? _); cbn; destruct (negb _); cbn;
    try destruct (DEBOUNCE_TICKS <=? _); reflexivity.
Qed.

(** The [default:] label. *)
Lemma state_machine_default h :
  ~ (0 <= state h <= 4) ->
  state_machine h = (set_state BTN_STATE_IDLE h, []).
Proof.
  intros Hs. unfold state_machine.
  destruct (state h) as [|p|p]; try lia; try reflexivity.
  do 3 (try destruct p as [p|p|]); try lia; reflexivity.
Qed.

(** ** Tactics for the cases of the [switch] *)

(** Comparisons decided from hypotheses. *)
Ltac decide_cmp :=
  repeat match goal with
  | |- context [?a =? ?b] =>
      let E := fresh "E" in
      destruct (Z.eqb_spec a b) as [E|E]; try (exfalso; lia); try (exfalso; congruence)
  | |- context [?a <? ?b] =>
      let E := fresh "E" in
      destruct (Z.ltb_spec a b) as [E|E]; try (exfalso; lia)
  | |- context [?a <=? ?b] =>
      let E := fresh "E" in
      destruct (Z.leb_spec a b) as [E|E]; try (exfalso; lia)
  end.

(** Enter the [case] of the [switch] a known state selects. *)
Ltac enter_case Hs :=
  unfold tick, tick_events; rewrite button_handler_eq;
  unfold state_machine; rewrite debounced_state, Hs;
  change BTN_STATE_IDLE with 0; change BTN_STATE_PRESS with 1;
  change BTN_STATE_RELEASE with 2; change BTN_STATE_REPEAT with 3;
  change BTN_STATE_LONG_HOLD with 4; cbv iota;
  rewrite ?debounced_active_level, ?debounced_repeat.

(** ** C8: recovery from an invalid state *)

(** C8. An instance whose [state] field holds none of the five defined
    states is set to Idle by one tick of the handler; no [EVENT_CB] is
    expanded, so no event is emitted and no callback called, and the [event]
    field keeps its value.  The handler is a total function: the tick yields
    a result for every such instance and every level read. *)
Theorem invalid_state_recovers (x : Z) (h : Button) :
  ~ (BTN_STATE_IDLE <= state h <= BTN_STATE_LONG_HOLD) ->
  button_handler x h = (set_state BTN_STATE_IDLE (debounced x h), []) /\
  state (tick x h) = BTN_STATE_IDLE /\
  tick_events x h = [] /\
  invoked (snd (button_handler x h)) = [] /\
  event (tick x h) = event h.
Proof.
  intros Hs. unfold tick, tick_events.
  rewrite button_handler_eq, state_machine_default
    by (rewrite debounced_state; exact Hs).
  cbn. rewrite debounced_event. repeat split; reflexivity.
Qed.

Lemma invalid_state_recovers_witness :
  let h := mkButton 9 3 4 6 1 1 0 0 (fun _ => Some 1%positive) None in
  ~ (BTN_STATE_IDLE <= state h <= BTN_STATE_LONG_HOLD) /\
  state (tick 1 h) = BTN_STATE_IDLE /\ tick_events 1 h = [].
Proof.
  cbv zeta.
  assert (Hs : ~ (BTN_STATE_IDLE <= 6 <= BTN_STATE_LONG_HOLD))
    by (unfold BTN_STATE_IDLE, BTN_STATE_LONG_HOLD; lia).
  split; [exact Hs|].
  pose proof (invalid_state_recovers 1
    (mkButton 9 3 4 6 1 1 0 0 (fun _ => Some 1%positive) None) Hs) as H.
  split; [apply H | apply H].
Defined.

(** ** C3: the click decision at the end of the quiet window *)

(** C3. In the Release state, when the debounced level of the tick is not
    the active level and the tick counter (as counted in this tick) exceeds
    [SHORT_TICKS], the handler goes to Idle and emits exactly SingleClick
    when [repeat] is 1, exactly DoubleClick when [repeat] is 2, and nothing
    at all when [repeat] is 3 or more. *)
Theorem release_timeout_click (x : Z) (h : Button) :
  state h = BTN_STATE_RELEASE ->
  button_level (debounced x h) <> active_level h ->
  SHORT_TICKS < ticks (debounced x h) ->
  state (tick x h) = BTN_STATE_IDLE /\
  (repeat h = 1 ->
     tick_events x h = [BTN_SINGLE_CLICK] /\
     event (tick x h) = ev_code BTN_SINGLE_CLICK) /\
  (repeat h = 2 ->
     tick_events x h = [BTN_DOUBLE_CLICK] /\
     event (tick x h) = ev_code BTN_DOUBLE_CLICK) /\
  (3 <= repeat h ->
     tick_events x h = [] /\ event (tick x h) = event h).
Proof.
  intros Hs Hl Ht. enter_case Hs.
  destruct (Z.eqb_spec (button_level (debounced x h)) (active_level h)) as [E|_];
    [contradiction|].
  destruct (Z.ltb_spec SHORT_TICKS (ticks (debounced x h))) as [_|E]; [|lia].
  split; [|split; [|split]].
  - destruct (repeat h =? 1); [|destruct (repeat h =? 2)]; reflexivity.
  - intros ->. cbn. split; reflexivity.
  - intros ->. cbn. split; reflexivity.
  - intros Hr. decide_cmp. cbn. rewrite debounced_event. split; reflexivity.
Qed.

Lemma release_timeout_click_witness :
  let h := mkButton 60 1 1 2 0 1 0 0 (fun _ => None) None in
  tick_events 0 h = [BTN_SINGLE_CLICK] /\ state (tick 0 h) = BTN_STATE_IDLE.
Proof.
  cbv zeta.
  assert (H := release_timeout_click 0
    (mkButton 60 1 1 2 0 1 0 0 (fun _ => None) None)).
  destruct H as (Hidle & Hone & _).
  - reflexivity.
  - vm_compute. discriminate.
  - vm_compute. reflexivity.
  - split; [apply Hone; reflexivity | exact Hidle].
Defined.

(** ** C5: a new press in the Release state *)

(** C5. In the Release state, a tick whose debounced level is the active
    level expands [EVENT_CB] exactly twice, for PressDown and then for
    PressRepeat, both inside that tick.  The PressDown callback is handed the
    instance with the old [repeat]; the PressRepeat callback is handed it
    with [repeat] already incremented and capped at 15.  The instance ends in
    the Repeat state with [ticks] 0; when both callbacks are registered both
    are called, in that order. *)
Theorem release_repress (x : Z) (h : Button) :
  state h = BTN_STATE_RELEASE ->
  button_level (debounced x h) = active_level h ->
  0 <= repeat h <= PRESS_REPEAT_MAX_NUM ->
  let hd := set_event (ev_code BTN_PRESS_DOWN) (debounced x h) in
  let hr := set_repeat (Z.min (repeat h + 1) PRESS_REPEAT_MAX_NUM) hd in
  let log := [mkFire BTN_PRESS_DOWN (cb h BTN_PRESS_DOWN) hd;
              mkFire BTN_PRESS_REPEAT (cb h BTN_PRESS_REPEAT) hr] in
  snd (button_handler x h) = log /\
  tick_events x h = [BTN_PRESS_DOWN; BTN_PRESS_REPEAT] /\
  (is_Some (cb h BTN_PRESS_DOWN) -> is_Some (cb h BTN_PRESS_REPEAT) ->
   invoked (snd (button_handler x h)) = log) /\
  repeat hd = repeat h /\
  repeat (tick x h) = Z.min (repeat h + 1) PRESS_REPEAT_MAX_NUM /\
  state (tick x h) = BTN_STATE_REPEAT /\
  ticks (tick x h) = 0.
Proof.
  intros Hs Hl Hr hd hr log.
  assert (Hlog : button_handler x h =
                 (set_state BTN_STATE_REPEAT (set_ticks 0 hr), log)).
  { rewrite button_handler_eq. unfold state_machine.
    rewrite debounced_state, Hs. cbv iota.
    rewrite debounced_active_level, Hl, Z.eqb_refl.
    subst log hr hd. unfold EVENT_CB. cbn.
    rewrite debounced_cb, debounced_repeat.
    unfold PRESS_REPEAT_MAX_NUM in *.
    destruct (Z.ltb_spec (repeat h) 15) as [E|E]; cbn;
      rewrite ?debounced_cb.
    - rewrite Z.mod_small, Z.min_l by lia. reflexivity.
    - rewrite Z.min_r by lia.
      assert (repeat h = 15) as E15 by lia.
      rewrite <- (debounced_repeat x h) in E15.
      destruct (debounced x h); cbn in *. subst. reflexivity. }
  unfold tick, tick_events. rewrite Hlog. cbn [fst snd].
  repeat split; try reflexivity.
  - intros H1 H2. subst log. unfold invoked. cbn.
    rewrite !decide_True by assumption. reflexivity.
  - subst hd. cbn. apply debounced_repeat.
Qed.

Lemma release_repress_witness :
  let h := mkButton 10 15 1 2 2 1 0 0 (fun _ => None) None in
  state h = BTN_STATE_RELEASE /\
  tick_events 1 h = [BTN_PRESS_DOWN; BTN_PRESS_REPEAT] /\
  repeat (tick 1 h) = 15 /\ ticks (tick 1 h) = 0.
Proof.
  cbv zeta.
  assert (H := release_repress 1
    (mkButton 10 15 1 2 2 1 0 0 (fun _ => None) None)).
  cbv zeta in H.
  destruct H as (_ & Hev & _ & _ & Hr & _ & Ht).
  - reflexivity.
  - vm_compute. reflexivity.
  - vm_compute. split; discriminate.
  - split; [reflexivity|]. split; [exact Hev|]. split; [exact Hr | exact Ht].
Defined.

(** ** C7: leaving the Repeat state *)

(** C7. In the Repeat state, with [t] the tick counter as counted in this
    tick: when the debounced level is not the active level the handler emits
    exactly PressUp and goes to Release with [ticks] 0 if [t < SHORT_TICKS],
    to Idle otherwise; when the level is still active and [t > SHORT_TICKS]
    it goes to Press and emits nothing.  Whatever the level read, a tick in
    Repeat never ends in LongHold and never emits LongPressStart. *)
Theorem repeat_state_step (x : Z) (h : Button) :
  state h = BTN_STATE_REPEAT ->
  let t := ticks (debounced x h) in
  (button_level (debounced x h) <> active_level h ->
     tick_events x h = [BTN_PRESS_UP] /\
     (t < SHORT_TICKS ->
        state (tick x h) = BTN_STATE_RELEASE /\ ticks (tick x h) = 0) /\
     (SHORT_TICKS <= t -> state (tick x h) = BTN_STATE_IDLE)) /\
  (button_level (debounced x h) = active_level h -> SHORT_TICKS < t ->
     state (tick x h) = BTN_STATE_PRESS /\ tick_events x h = []) /\
  state (tick x h) <> BTN_STATE_LONG_HOLD /\
  ~ In BTN_LONG_PRESS_START (tick_events x h).
Proof.
  intros Hs t. subst t. enter_case Hs.
  cbv zeta. cbn [ticks set_event].
  destruct (Z.eqb_spec (button_level (debounced x h)) (active_level h)) as [E|E];
    cbn [negb].
  - split; [intros; contradiction|].
    destruct (Z.ltb_spec SHORT_TICKS (ticks (debounced x h))) as [E1|E1];
      cbn [fst snd fired map state set_state].
    + split; [intros _ _; split; reflexivity|].
      split; [discriminate | intros []].
    + rewrite debounced_state, Hs.
      split; [intros _ Hlt; lia|].
      split; [discriminate | intros []].
  - destruct (Z.ltb_spec (ticks (debounced x h)) SHORT_TICKS) as [E1|E1];
      cbn [fst snd fired map state set_state set_ticks set_event ticks EVENT_CB
           fire_ev].
    + split; [intros _; split; [reflexivity|]; split; [intros _; split; reflexivity | lia]|].
      split; [intros; contradiction|].
      split; [discriminate | intros [H|[]]; discriminate].
    + split; [intros _; split; [reflexivity|]; split; [lia | reflexivity]|].
      split; [intros; contradiction|].
      split; [discriminate | intros [H|[]]; discriminate].
Qed.

Lemma repeat_state_step_witness :
  let h := mkButton 60 2 0 3 0 1 1 0 (fun _ => None) None in
  state h = BTN_STATE_REPEAT /\
  state (tick 1 h) = BTN_STATE_PRESS /\ tick_events 1 h = [].
Proof.
  cbv zeta.
  assert (H := repeat_state_step 1
    (mkButton 60 2 0 3 0 1 1 0 (fun _ => None) None)).
  cbv zeta in H.
  destruct H as (_ & Hp & _).
  - reflexivity.
  - split; [reflexivity|]. apply Hp; vm_compute; reflexivity.
Defined.

(** ** C10: the [event] field is not latched *)

(** C10. A tick of an instance in the Idle state whose debounced level is
    not the active level stores the 'none' value in [event], stays in Idle
    and emits nothing.  More generally, after any tick processed in Idle
    [button_get_event] reports neither SingleClick nor DoubleClick: a click
    stored by the tick that left Release (here for [g], with [repeat] 1) is
    reported right after that tick and no longer after the next one.
    [button_get_event] on [NULL] returns the 'none' value. *)
Theorem event_not_latched (x : Z) (h : Button) :
  state h = BTN_STATE_IDLE ->
  (button_level (debounced x h) <> active_level h ->
     button_get_event (Some (tick x h)) = ev_code BTN_NONE_PRESS /\
     state (tick x h) = BTN_STATE_IDLE /\
     tick_events x h = []) /\
  button_get_event (Some (tick x h)) <> ev_code BTN_SINGLE_CLICK /\
  button_get_event (Some (tick x h)) <> ev_code BTN_DOUBLE_CLICK /\
  (forall (y : Z) (g : Button),
     state g = BTN_STATE_RELEASE -> repeat g = 1 ->
     button_level (debounced y g) <> active_level g ->
     SHORT_TICKS < ticks (debounced y g) ->
     button_get_event (Some (tick y g)) = ev_code BTN_SINGLE_CLICK /\
     forall z, button_get_event (Some (tick z (tick y g)))
               <> ev_code BTN_SINGLE_CLICK) /\
  button_get_event None = ev_code BTN_NONE_PRESS.
Proof.
  assert (Hidle : forall z k, state k = BTN_STATE_IDLE ->
            event (tick z k) = ev_code BTN_PRESS_DOWN \/
            event (tick z k) = ev_code BTN_NONE_PRESS).
  { intros z k Hk. enter_case Hk.
    destruct (_ =? _); cbn; [left|right]; reflexivity. }
  intros Hs. cbn [button_get_event].
  split; [|split; [|split; [|split]]].
  - intros Hl. enter_case Hs.
    destruct (Z.eqb_spec (button_level (debounced x h)) (active_level h));
      [contradiction|].
    cbn. rewrite debounced_state. auto.
  - destruct (Hidle x h Hs) as [-> | ->]; discriminate.
  - destruct (Hidle x h Hs) as [-> | ->]; discriminate.
  - intros y g Hg Hr Hl Ht.
    assert (Hy : event (tick y g) = ev_code BTN_SINGLE_CLICK /\
                 state (tick y g) = BTN_STATE_IDLE).
    { enter_case Hg.
      destruct (Z.eqb_spec (button_level (debounced y g)) (active_level g));
        [contradiction|].
      destruct (Z.ltb_spec SHORT_TICKS (ticks (debounced y g))); [|lia].
      rewrite Hr. cbn. split; reflexivity. }
    destruct Hy as [Hev Hst]. split; [exact Hev|].
    intros z. destruct (Hidle z _ Hst) as [-> | ->]; discriminate.
  - reflexivity.
Qed.

Lemma event_not_latched_witness :
  let h := mkButton 61 1 (ev_code BTN_SINGLE_CLICK) 0 0 1 0 0 (fun _ => None) None in
  let g := mkButton 60 1 (ev_code BTN_PRESS_UP) 2 0 1 0 0 (fun _ => None) None in
  (button_get_event (Some h) = ev_code BTN_SINGLE_CLICK /\
   state h = BTN_STATE_IDLE /\
   button_get_event (Some (tick 0 h)) = ev_code BTN_NONE_PRESS) /\
  (state g = BTN_STATE_RELEASE /\
   button_get_event (Some (tick 0 g)) = ev_code BTN_SINGLE_CLICK /\
   button_get_event (Some (tick 0 (tick 0 g))) <> ev_code BTN_SINGLE_CLICK).
Proof.
  cbv zeta.
  assert (H := event_not_latched 0
    (mkButton 61 1 (ev_code BTN_SINGLE_CLICK) 0 0 1 0 0 (fun _ => None) None)
    eq_refl).
  destruct H as (Hnone & _ & _ & Hclick & _).
  split.
  - split; [reflexivity|]. split; [reflexivity|].
    apply Hnone. vm_compute. discriminate.
  - split; [reflexivity|].
    destruct (Hclick 0
      (mkButton 60 1 (ev_code BTN_PRESS_UP) 2 0 1 0 0 (fun _ => None) None))
      as [Hev Hnext].
    + reflexivity.
    + reflexivity.
    + vm_compute. discriminate.
    + vm_compute. reflexivity.
    + split; [exact Hev | apply Hnext].
Defined.

(** ** C1: where the tick counter is reset *)

Lemma state_cases (h : Button) :
  state h = BTN_STATE_IDLE \/ state h = BTN_STATE_PRESS \/
  state h = BTN_STATE_RELEASE \/ state h = BTN_STATE_REPEAT \/
  state h = BTN_STATE_LONG_HOLD \/
  ~ (BTN_STATE_IDLE <= state h <= BTN_STATE_LONG_HOLD).
Proof.
  unfold BTN_STATE_IDLE, BTN_STATE_PRESS, BTN_STATE_RELEASE, BTN_STATE_REPEAT,
    BTN_STATE_LONG_HOLD. lia.
Qed.

Lemma reachable_run levels h :
  reachable h -> Forall (fun x => x = 0 \/ x = 1) levels ->
  reachable (run_state levels h).
Proof.
  unfold run_state. revert h.
  induction levels as [|x xs IH]; intros h Hh Hall; [exact Hh|].
  inversion Hall; subst. cbn.
  specialize (IH (tick x h) (reachable_tick x h Hh ltac:(assumption))
                 ltac:(assumption)).
  destruct (run xs (tick x h)). exact IH.
Qed.

(** C1, as amended. A tick that changes the state leaves [ticks] at 0 on
    the transitions Idle->Press, Press->Release, Release->Repeat and
    Repeat->Release.  Every other transition (Press->LongHold, Repeat->Press,
    Release->Idle, Repeat->Idle, LongHold->Idle, and the recovery of an
    invalid state to Idle) stores nothing in [ticks]: the counter keeps the
    value counted in that tick, the old value plus one modulo 2^16. *)
Theorem ticks_after_transition (x : Z) (h : Button) :
  0 <= state h < 8 ->
  state (tick x h) <> state h ->
  ((transition x h BTN_STATE_IDLE BTN_STATE_PRESS \/
    transition x h BTN_STATE_PRESS BTN_STATE_RELEASE \/
    transition x h BTN_STATE_RELEASE BTN_STATE_REPEAT \/
    transition x h BTN_STATE_REPEAT BTN_STATE_RELEASE) /\
   ticks (tick x h) = 0) \/
  ((transition x h BTN_STATE_PRESS BTN_STATE_LONG_HOLD \/
    transition x h BTN_STATE_REPEAT BTN_STATE_PRESS \/
    transition x h BTN_STATE_RELEASE BTN_STATE_IDLE \/
    transition x h BTN_STATE_REPEAT BTN_STATE_IDLE \/
    transition x h BTN_STATE_LONG_HOLD BTN_STATE_IDLE \/
    (~ (BTN_STATE_IDLE <= state h <= BTN_STATE_LONG_HOLD) /\
     state (tick x h) = BTN_STATE_IDLE)) /\
   ticks (tick x h) = (ticks h + 1) mod 65536).
Proof.
  intros Hrange. unfold transition.
  destruct (state_cases h) as [Hs|[Hs|[Hs|[Hs|[Hs|Hs]]]]].
  - rewrite Hs. enter_case Hs.
    destruct (_ =? _); cbn; rewrite ?debounced_state, ?Hs; intros Hne;
      [|contradiction].
    left. split; [|reflexivity]. left. split; reflexivity.
  - assert (Ht := debounced_ticks x h). rewrite Hs in Ht. cbn in Ht.
    rewrite Hs. enter_case Hs.
    destruct (_ =? _); cbn [negb].
    + destruct (_ <? _); cbn; rewrite ?debounced_state, ?Hs; intros Hne;
        [|contradiction].
      right. split; [|exact Ht]. left. split; reflexivity.
    + cbn. intros _. left. split; [|reflexivity].
      right; left. split; reflexivity.
  - assert (Ht := debounced_ticks x h). rewrite Hs in Ht. cbn in Ht.
    rewrite Hs. enter_case Hs.
    destruct (_ =? _).
    + cbn. intros _. left. split; [|reflexivity].
      right; right; left. split; reflexivity.
    + destruct (_ <? _).
      * intros _. right.
        split; [right; right; left; split; [reflexivity|]|];
          destruct (repeat h =? 1); try destruct (repeat h =? 2); cbn;
          first [reflexivity | exact Ht].
      * cbn. rewrite debounced_state, Hs. intros Hne. contradiction.
  - assert (Ht := debounced_ticks x h). rewrite Hs in Ht. cbn in Ht.
    rewrite Hs. enter_case Hs. cbv zeta. cbn [ticks set_event].
    destruct (_ =? _); cbn [negb].
    + destruct (_ <? _); cbn; rewrite ?debounced_state, ?Hs; intros Hne;
        [|contradiction].
      right. split; [|exact Ht]. right; left. split; reflexivity.
    + destruct (_ <? _); cbn; intros _.
      * left. split; [|reflexivity]. do 3 right. split; reflexivity.
      * right. split; [|exact Ht]. do 3 right; left. split; reflexivity.
  - assert (Ht := debounced_ticks x h). rewrite Hs in Ht. cbn in Ht.
    rewrite Hs. enter_case Hs.
    destruct (_ =? _); cbn; rewrite ?debounced_state, ?Hs; intros Hne;
      [contradiction|].
    right. split; [|exact Ht]. do 4 right; left. split; reflexivity.
  - intros _. unfold tick. rewrite button_handler_eq, state_machine_default
      by (rewrite debounced_state; exact Hs).
    cbn. right. split; [do 5 right; split; [exact Hs | reflexivity]|].
    rewrite debounced_ticks.
    destruct (Z.ltb_spec BTN_STATE_IDLE (state h)) as [E|E]; [reflexivity|].
    exfalso. apply Hs. unfold BTN_STATE_IDLE, BTN_STATE_LONG_HOLD in *. lia.
Qed.

Lemma ticks_after_transition_witness :
  let h := mkButton 200 1 0 BTN_STATE_PRESS 0 1 1 0 (fun _ => None) None in
  state (tick 1 h) = BTN_STATE_LONG_HOLD /\ ticks (tick 1 h) = 201.
Proof.
  cbv zeta.
  assert (H := ticks_after_transition 1
    (mkButton 200 1 0 BTN_STATE_PRESS 0 1 1 0 (fun _ => None) None)).
  destruct H as [[_ H0]|[_ H1]].
  - vm_compute. split; [discriminate | reflexivity].
  - vm_compute. discriminate.
  - vm_compute in H0. discriminate H0.
  - split; [reflexivity | exact H1].
Defined.

(** C1 as the specification states it fails: started by [button_init] with
    active level 1 and held at level 1, the instance enters Press on the
    third tick and goes from Press to LongHold on tick 204, where [ticks]
    is 201. *)
Lemma ticks_not_reset_on_every_transition :
  ~ (forall (x : Z) (h : Button),
       reachable h -> x = 0 \/ x = 1 ->
       state (tick x h) <> state h -> ticks (tick x h) = 0).
Proof.
  intros Hall.
  specialize (Hall 1 (run_state (replicate 203 1) (init_button 1 0))).
  assert (Hr : reachable (run_state (replicate 203 1) (init_button 1 0))).
  { apply reachable_run.
    - apply reachable_init; lia.
    - apply Forall_replicate. right. reflexivity. }
  specialize (Hall Hr (or_intror eq_refl)).
  assert (Hne : state (tick 1 (run_state (replicate 203 1) (init_button 1 0)))
                <> state (run_state (replicate 203 1) (init_button 1 0)))
    by (vm_compute; discriminate).
  specialize (Hall Hne). vm_compute in Hall. discriminate Hall.
Qed.

(** ** C4: the repeat counter *)

Lemma tick_repeat (x : Z) (h : Button) :
  0 <= repeat h <= PRESS_REPEAT_MAX_NUM ->
  repeat (tick x h) =
    if (state h =? BTN_STATE_IDLE)
       && (button_level (debounced x h) =? active_level h) then 1
    else if (state h =? BTN_STATE_RELEASE)
            && (button_level (debounced x h) =? active_level h)
            && (repeat h <? PRESS_REPEAT_MAX_NUM) then repeat h + 1
    else repeat h.
Proof.
  intros Hr. unfold PRESS_REPEAT_MAX_NUM in *.
  destruct (state_cases h) as [Hs|[Hs|[Hs|[Hs|[Hs|Hs]]]]];
    try (rewrite Hs; enter_case Hs; cbv zeta; cbn [ticks set_event];
         change (?a =? ?b) with (Z.eqb a b) at 1 2;
         cbn [Z.eqb Pos.eqb andb]).
  - destruct (_ =? _); cbn; [reflexivity | apply debounced_repeat].
  - destruct (_ =? _); cbn; [destruct (_ <? _)|]; cbn; apply debounced_repeat.
  - destruct (button_level (debounced x h) =? active_level h); cbn [andb].
    + unfold PRESS_REPEAT_MAX_NUM. cbn [repeat set_event fst].
      rewrite debounced_repeat.
      destruct (Z.ltb_spec (repeat h) 15); cbn; rewrite ?debounced_repeat;
        [apply Z.mod_small; lia | reflexivity].
    + destruct (_ <? _); [|apply debounced_repeat].
      destruct (repeat h =? 1); [|destruct (repeat h =? 2)]; cbn;
        apply debounced_repeat.
  - destruct (_ =? _); cbn [negb]; [destruct (_ <? _)|destruct (_ <? _)]; cbn;
      apply debounced_repeat.
  - destruct (_ =? _); cbn; apply debounced_repeat.
  - unfold tick. rewrite button_handler_eq, state_machine_default
      by (rewrite debounced_state; exact Hs).
    cbn. rewrite debounced_repeat.
    unfold BTN_STATE_IDLE, BTN_STATE_LONG_HOLD, BTN_STATE_RELEASE in *.
    destruct (Z.eqb_spec (state h) 0); [lia|].
    destruct (Z.eqb_spec (state h) 2); [lia|]. reflexivity.
Qed.

Lemma tick_repeat_range (x : Z) (h : Button) :
  0 <= repeat h <= PRESS_REPEAT_MAX_NUM ->
  0 <= repeat (tick x h) <= PRESS_REPEAT_MAX_NUM.
Proof.
  intros Hr. rewrite tick_repeat by exact Hr.
  unfold PRESS_REPEAT_MAX_NUM in *.
  destruct (_ && _); [lia|].
  destruct (Z.ltb_spec (repeat h) 15).
  - destruct (_ && _); cbn; lia.
  - rewrite andb_false_r. lia.
Qed.

Lemma run_state_cons x xs h :
  run_state (x :: xs) h = run_state xs (tick x h).
Proof. unfold run_state. cbn. destruct (run xs (tick x h)). reflexivity. Qed.

Lemma run_events_cons x xs h :
  run_events (x :: xs) h = tick_events x h :: run_events xs (tick x h).
Proof. unfold run_events. cbn. destruct (run xs (tick x h)). reflexivity. Qed.

Lemma run_state_app xs ys h :
  run_state (xs ++ ys) h = run_state ys (run_state xs h).
Proof.
  revert h. induction xs as [|x xs IH]; intros h; [reflexivity|].
  rewrite <- app_comm_cons, !run_state_cons. apply IH.
Qed.

(** C4. Whatever levels are read, [repeat] never exceeds
    [PRESS_REPEAT_MAX_NUM] = 15: a tick sets it to 1 when it leaves Idle for
    Press, adds one to it on a new press in Release only while it is below
    15, and leaves it alone in every other case. *)
Theorem repeat_never_exceeds_max (levels : list Z) (h : Button) :
  0 <= repeat h <= PRESS_REPEAT_MAX_NUM ->
  0 <= repeat (run_state levels h) <= PRESS_REPEAT_MAX_NUM /\
  forall x : Z,
    let g := run_state levels h in
    let pressed := button_level (debounced x g) =? active_level g in
    repeat (tick x g) =
      if (state g =? BTN_STATE_IDLE) && pressed then 1
      else if (state g =? BTN_STATE_RELEASE) && pressed
              && (repeat g <? PRESS_REPEAT_MAX_NUM) then repeat g + 1
      else repeat g.
Proof.
  intros Hr.
  assert (Hinv : 0 <= repeat (run_state levels h) <= PRESS_REPEAT_MAX_NUM).
  { revert h Hr. induction levels as [|y ys IH]; intros h Hr; [exact Hr|].
    rewrite run_state_cons. apply IH, tick_repeat_range, Hr. }
  split; [exact Hinv|].
  intros x g pressed. subst pressed g. apply tick_repeat, Hinv.
Qed.

Lemma repeat_never_exceeds_max_witness :
  let h := mkButton 5 15 1 BTN_STATE_RELEASE 2 1 0 0 (fun _ => None) None in
  0 <= repeat h <= PRESS_REPEAT_MAX_NUM /\
  0 <= repeat (run_state [1; 0; 0; 0; 1; 1; 1] h) <= PRESS_REPEAT_MAX_NUM.
Proof.
  cbv zeta.
  assert (Hr : 0 <= 15 <= PRESS_REPEAT_MAX_NUM)
    by (unfold PRESS_REPEAT_MAX_NUM; lia).
  split; [exact Hr|].
  apply (repeat_never_exceeds_max [1; 0; 0; 0; 1; 1; 1]
    (mkButton 5 15 1 BTN_STATE_RELEASE 2 1 0 0 (fun _ => None) None) Hr).
Defined.

Example repeat_saturates :
  let h := mkButton 5 15 1 BTN_STATE_RELEASE 2 1 0 0 (fun _ => None) None in
  repeat (tick 1 h) = 15 /\ state (tick 1 h) = BTN_STATE_REPEAT.
Proof. split; reflexivity. Qed.

(** ** C2: the debounce filter *)

Lemma state_machine_level h :
  button_level (fst (state_machine h)) = button_level h /\
  debounce_cnt (fst (state_machine h)) = debounce_cnt h.
Proof.
  destruct (state_cases h) as [Hs|[Hs|[Hs|[Hs|[Hs|Hs]]]]];
    try (unfold state_machine; rewrite Hs; cbv iota zeta;
         cbn [ticks repeat set_event];
         repeat match goal with
                | |- context [if ?b then _ else _] => destruct b
                end; cbn; split; reflexivity).
  rewrite state_machine_default by exact Hs. cbn. split; reflexivity.
Qed.

Lemma tick_button_level x h :
  button_level (tick x h) = button_level (debounce x h).
Proof.
  unfold tick. rewrite button_handler_eq.
  rewrite (proj1 (state_machine_level _)).
  unfold debounced, count_tick, debounce.
  destruct (_ <? _); cbn; destruct (negb _); cbn;
    try destruct (DEBOUNCE_TICKS <=? _); reflexivity.
Qed.

Lemma tick_debounce_cnt x h :
  debounce_cnt (tick x h) = debounce_cnt (debounce x h).
Proof.
  unfold tick. rewrite button_handler_eq.
  rewrite (proj2 (state_machine_level _)).
  unfold debounced, count_tick, debounce.
  destruct (_ <? _); cbn; destruct (negb _); cbn;
    try destruct (DEBOUNCE_TICKS <=? _); reflexivity.
Qed.

(** The three cases of the debounce block. *)
Lemma debounce_agree x h :
  x = button_level h ->
  button_level (debounce x h) = button_level h /\
  debounce_cnt (debounce x h) = 0.
Proof.
  intros ->. unfold debounce. rewrite Z.eqb_refl. cbn. split; reflexivity.
Qed.

Lemma debounce_pending x h :
  x <> button_level h ->
  0 <= debounce_cnt h -> debounce_cnt h + 1 < DEBOUNCE_TICKS ->
  button_level (debounce x h) = button_level h /\
  debounce_cnt (debounce x h) = debounce_cnt h + 1.
Proof.
  intros Hx H0 Hc. unfold debounce, DEBOUNCE_TICKS in *.
  destruct (Z.eqb_spec x (button_level h)); [contradiction|].
  cbn. rewrite Z.mod_small by lia.
  destruct (Z.leb_spec 3 (debounce_cnt h + 1)); [lia|].
  cbn. split; reflexivity.
Qed.

Lemma debounce_commit x h :
  x <> button_level h -> binary x ->
  debounce_cnt h + 1 = DEBOUNCE_TICKS ->
  button_level (debounce x h) = x /\
  debounce_cnt (debounce x h) = 0.
Proof.
  intros Hx Hb Hc. unfold debounce, DEBOUNCE_TICKS in *.
  destruct (Z.eqb_spec x (button_level h)); [contradiction|].
  cbn. rewrite Hc. cbn.
  destruct Hb as [-> | ->]; split; reflexivity.
Qed.

(** Along a run that starts with the counter at 0, the counter is the
    number of most recent samples that differ from the stable level. *)
Lemma debounce_cnt_streak (levels : list Z) (h : Button) :
  binary (button_level h) -> debounce_cnt h = 0 ->
  Forall binary levels ->
  let g := run_state levels h in
  binary (button_level g) /\
  debounce_cnt g = Z.of_nat (streak (button_level g) (rev levels)) /\
  0 <= debounce_cnt g < DEBOUNCE_TICKS.
Proof.
  intros Hb Hc Hall. cbv zeta.
  induction levels as [|x xs IH] using rev_ind.
  - cbn. unfold run_state. cbn. rewrite Hc. unfold DEBOUNCE_TICKS.
    split; [exact Hb|]. split; [reflexivity | lia].
  - apply Forall_app in Hall as [Hxs Hx].
    apply Forall_cons in Hx as [Hx _].
    destruct (IH Hxs) as (IHb & IHc & IHr). clear IH.
    rewrite run_state_app, rev_app_distr.
    change (run_state [x] ?k) with (tick x k). cbn [rev app].
    set (g := run_state xs h) in *.
    rewrite tick_button_level, tick_debounce_cnt.
    destruct (Z.eq_dec x (button_level g)) as [E|E].
    + destruct (debounce_agree x g E) as [-> ->].
      cbn [streak]. rewrite E, Z.eqb_refl. unfold DEBOUNCE_TICKS.
      split; [exact IHb|]. split; [reflexivity | lia].
    + destruct (Z.eq_dec (debounce_cnt g + 1) DEBOUNCE_TICKS) as [C|C].
      * destruct (debounce_commit x g E Hx C) as [-> ->].
        cbn [streak]. rewrite Z.eqb_refl. unfold DEBOUNCE_TICKS.
        split; [exact Hx|]. split; [reflexivity | lia].
      * destruct (debounce_pending x g E) as [-> ->]; [lia | lia |].
        cbn [streak]. destruct (Z.eqb_spec x (button_level g)); [contradiction|].
        split; [exact IHb|]. split; lia.
Qed.

(** C2. Take an instance whose debounce counter is 0 (as [button_init] and
    [button_reset] leave it), feed it binary samples [levels], and let [g] be
    the instance before a further sample [x].
    - A sample equal to the stable level leaves the level alone and resets
      the counter to 0.
    - The stable level changes in the tick of [x] exactly when [x] completes
      a row of [DEBOUNCE_TICKS] most recent samples that all differ from it;
      the level then becomes [x] and the counter is reset to 0.
    - A single differing sample (a row of length one) leaves the level
      alone, and an agreeing sample after it clears the counter again. *)
Theorem debounce_filter (levels : list Z) (x : Z) (h : Button) :
  binary (button_level h) -> debounce_cnt h = 0 ->
  Forall binary levels -> binary x ->
  let g := run_state levels h in
  let g' := tick x g in
  (x = button_level g ->
     button_level g' = button_level g /\ debounce_cnt g' = 0) /\
  (button_level g' <> button_level g <->
     Z.of_nat (streak (button_level g) (x :: rev levels)) = DEBOUNCE_TICKS) /\
  (button_level g' <> button_level g ->
     button_level g' = x /\ debounce_cnt g' = 0) /\
  (streak (button_level g) (x :: rev levels) = 1%nat ->
     button_level g' = button_level g /\ debounce_cnt g' = 1 /\
     button_level (tick (button_level g) g') = button_level g /\
     debounce_cnt (tick (button_level g) g') = 0).
Proof.
  intros Hb Hc Hall Hx g g'.
  destruct (debounce_cnt_streak levels h Hb Hc Hall) as (Gb & Gc & Gr).
  fold g in Gb, Gc, Gr. subst g'.
  rewrite !tick_button_level, !tick_debounce_cnt.
  cbn [streak]. unfold DEBOUNCE_TICKS in *.
  destruct (Z.eqb_spec x (button_level g)) as [E|E].
  - destruct (debounce_agree x g E) as [Hl Hd]. rewrite Hl, Hd.
    split; [intros _; split; reflexivity|].
    split; [split; [intros H; contradiction | cbn; lia]|].
    split; [intros H; contradiction | discriminate].
  - split; [intros H; contradiction|].
    destruct (Z.eq_dec (debounce_cnt g + 1) 3) as [C|C].
    + destruct (debounce_commit x g E Hx C) as [Hl Hd]. rewrite Hl, Hd.
      split; [split; [intros _; lia | intros _; exact E]|].
      split; [intros _; split; reflexivity|].
      intros H1. lia.
    + destruct (debounce_pending x g E) as [Hl Hd];
        [lia | unfold DEBOUNCE_TICKS; lia |].
      rewrite Hl, Hd.
      split; [split; [intros H; contradiction | lia]|].
      split; [intros H; contradiction|].
      intros H1. assert (debounce_cnt g = 0) as G0 by lia.
      split; [reflexivity|]. split; [lia|].
      assert (Hagree : button_level g = button_level (tick x g))
        by (rewrite tick_button_level, Hl; reflexivity).
      destruct (debounce_agree (button_level g) (tick x g) Hagree) as [Hl2 Hd2].
      rewrite Hl2, Hd2, tick_button_level, Hl. split; reflexivity.
Qed.

Lemma debounce_filter_witness :
  let h := init_button 1 0 in
  (button_level (run_state [1; 1] h) = 0 /\
   button_level (run_state [1; 1; 1] h) = 1 /\
   debounce_cnt (run_state [1; 1; 1] h) = 0) /\
  (button_level (run_state [1; 0; 1] h) = 0 /\
   debounce_cnt (run_state [1; 0; 1] h) = 1).
Proof.
  cbv zeta.
  assert (Hb : binary (button_level (init_button 1 0))) by (left; reflexivity).
  assert (H2 : Forall binary [1; 1])
    by (repeat (constructor; [unfold binary; lia|]); constructor).
  assert (H3 : Forall binary [1; 0])
    by (repeat (constructor; [unfold binary; lia|]); constructor).
  split.
  - destruct (debounce_filter [1; 1] 1 (init_button 1 0) Hb eq_refl H2
                (or_intror eq_refl)) as (_ & Hiff & Hnew & _).
    cbv zeta in Hiff, Hnew.
    split; [reflexivity|].
    apply Hnew, Hiff. reflexivity.
  - destruct (debounce_filter [1; 0] 1 (init_button 1 0) Hb eq_refl H3
                (or_intror eq_refl)) as (_ & _ & _ & Hone).
    cbv zeta in Hone.
    destruct (Hone eq_refl) as (Hl & Hd & _). split; [exact Hl | exact Hd].
Defined.

(** ** C9: a sustained press *)

Lemma LONG_TICKS_eq : LONG_TICKS = 200.
Proof. reflexivity. Qed.

Lemma SHORT_TICKS_eq : SHORT_TICKS = 60.
Proof. reflexivity. Qed.

Lemma press_hold_step x h :
  state h = BTN_STATE_PRESS ->
  button_level (debounced x h) = active_level h ->
  0 <= ticks h < LONG_TICKS ->
  state (tick x h) = BTN_STATE_PRESS /\
  ticks (tick x h) = ticks h + 1 /\
  tick_events x h = [].
Proof.
  intros Hs Hl Ht.
  assert (Hd := debounced_ticks x h). rewrite Hs in Hd. cbn in Hd.
  rewrite LONG_TICKS_eq in Ht.
  rewrite Z.mod_small in Hd by lia.
  enter_case Hs. rewrite Hl, Z.eqb_refl. cbn [negb].
  rewrite Hd, LONG_TICKS_eq.
  destruct (Z.ltb_spec 200 (ticks h + 1)) as [E|E]; [lia|].
  cbn. rewrite debounced_state. auto.
Qed.

Lemma press_long_start x h :
  state h = BTN_STATE_PRESS ->
  button_level (debounced x h) = active_level h ->
  ticks h = LONG_TICKS ->
  state (tick x h) = BTN_STATE_LONG_HOLD /\
  tick_events x h = [BTN_LONG_PRESS_START].
Proof.
  intros Hs Hl Ht.
  assert (Hd := debounced_ticks x h). rewrite Hs, Ht in Hd. cbn in Hd.
  enter_case Hs. rewrite Hl, Z.eqb_refl. cbn [negb].
  rewrite Hd. cbn. auto.
Qed.

Lemma long_hold_step x h :
  state h = BTN_STATE_LONG_HOLD ->
  button_level (debounced x h) = active_level h ->
  state (tick x h) = BTN_STATE_LONG_HOLD /\
  tick_events x h = [BTN_LONG_PRESS_HOLD].
Proof.
  intros Hs Hl. enter_case Hs. rewrite Hl, Z.eqb_refl. cbn.
  rewrite debounced_state. auto.
Qed.

Lemma long_hold_release x h :
  state h = BTN_STATE_LONG_HOLD ->
  button_level (debounced x h) <> active_level h ->
  state (tick x h) = BTN_STATE_IDLE /\
  tick_events x h = [BTN_PRESS_UP].
Proof.
  intros Hs Hl. enter_case Hs.
  destruct (Z.eqb_spec (button_level (debounced x h)) (active_level h));
    [contradiction|].
  cbn. auto.
Qed.

Lemma long_hold_run levels h :
  state h = BTN_STATE_LONG_HOLD ->
  level_stays_active levels h ->
  state (run_state levels h) = BTN_STATE_LONG_HOLD /\
  run_events levels h = replicate (length levels) [BTN_LONG_PRESS_HOLD].
Proof.
  revert h. induction levels as [|x xs IH]; intros h Hs Hact.
  - split; [exact Hs | reflexivity].
  - destruct Hact as [Hl Hrest].
    destruct (long_hold_step x h Hs Hl) as [Hs' Hev].
    rewrite run_state_cons, run_events_cons, Hev.
    destruct (IH _ Hs' Hrest) as [-> ->]. split; reflexivity.
Qed.

Lemma long_press_events_after (k n s : nat) :
  (k < s)%nat ->
  map (long_press_events k) (seq s n) = replicate n [BTN_LONG_PRESS_HOLD].
Proof.
  revert s. induction n as [|n IH]; intros s Hs; [reflexivity|].
  cbn [seq map replicate]. rewrite IH by lia. f_equal.
  unfold long_press_events.
  destruct (Nat.ltb_spec s k); [lia|].
  destruct (Nat.eqb_spec s k); [lia|]. reflexivity.
Qed.

Lemma long_press_events_before (k n s : nat) :
  (s + n <= k)%nat ->
  map (long_press_events k) (seq s n) = replicate n [].
Proof.
  revert s. induction n as [|n IH]; intros s Hs; [reflexivity|].
  cbn [seq map replicate]. rewrite IH by lia. f_equal.
  unfold long_press_events.
  destruct (Nat.ltb_spec s k); [reflexivity | lia].
Qed.

Lemma long_press_events_split (k n : nat) :
  (k < n)%nat ->
  map (long_press_events k) (seq 0 n) =
  replicate k [] ++ [BTN_LONG_PRESS_START]
    :: replicate (n - S k) [BTN_LONG_PRESS_HOLD].
Proof.
  intros Hk. replace n with (k + S (n - S k))%nat at 1 by lia.
  rewrite seq_app, map_app. cbn [seq map Nat.add].
  rewrite long_press_events_before, long_press_events_after by lia.
  unfold long_press_events at 1.
  rewrite Nat.ltb_irrefl, Nat.eqb_refl. reflexivity.
Qed.

Lemma long_press_events_shift (k n : nat) :
  map (long_press_events (S k)) (seq 1 n) =
  map (long_press_events k) (seq 0 n).
Proof.
  rewrite <- seq_shift, map_map. apply map_ext. intros i. reflexivity.
Qed.

Lemma press_run levels h :
  state h = BTN_STATE_PRESS ->
  0 <= ticks h <= LONG_TICKS ->
  level_stays_active levels h ->
  let k := Z.to_nat (LONG_TICKS - ticks h) in
  run_events levels h = map (long_press_events k) (seq 0 (length levels)) /\
  state (run_state levels h) =
    (if (length levels <=? k)%nat then BTN_STATE_PRESS
     else BTN_STATE_LONG_HOLD).
Proof.
  revert h. induction levels as [|x xs IH]; intros h Hs Ht Hact k.
  - split; [reflexivity | exact Hs].
  - destruct Hact as [Hl Hrest].
    rewrite run_state_cons, run_events_cons. cbn [length seq map].
    destruct (Z.eq_dec (ticks h) LONG_TICKS) as [E|E].
    + destruct (press_long_start x h Hs Hl E) as [Hs' Hev].
      assert (k = 0%nat) as -> by (subst k; rewrite E; reflexivity).
      destruct (long_hold_run xs _ Hs' Hrest) as [-> ->].
      rewrite Hev, long_press_events_after by lia. split; reflexivity.
    + destruct (press_hold_step x h Hs Hl ltac:(lia)) as (Hs' & Ht' & Hev).
      destruct (IH _ Hs' ltac:(lia) Hrest) as [IHev IHst].
      rewrite Ht' in IHev, IHst.
      assert (k = S (Z.to_nat (LONG_TICKS - (ticks h + 1)))) as ->
        by (subst k; lia).
      rewrite long_press_events_shift, IHev, IHst, Hev.
      split; reflexivity.
Qed.

Lemma press_prefix (j : nat) levels h :
  state h = BTN_STATE_PRESS ->
  0 <= ticks h <= LONG_TICKS ->
  level_stays_active levels h ->
  (j <= Z.to_nat (LONG_TICKS - ticks h))%nat -> (j <= length levels)%nat ->
  state (run_state (take j levels) h) = BTN_STATE_PRESS /\
  ticks (run_state (take j levels) h) = ticks h + Z.of_nat j.
Proof.
  revert levels h. induction j as [|j IH]; intros levels h Hs Ht Hact Hk Hn.
  - rewrite take_0. unfold run_state. cbn. split; [exact Hs | lia].
  - destruct levels as [|x xs]; [cbn in Hn; lia|].
    destruct Hact as [Hl Hrest]. cbn in Hn.
    rewrite firstn_cons, run_state_cons.
    destruct (press_hold_step x h Hs Hl ltac:(lia)) as (Hs' & Ht' & _).
    destruct (IH xs _ Hs' ltac:(lia) Hrest ltac:(lia) ltac:(lia)) as [-> ->].
    split; [reflexivity | lia].
Qed.

(** C9. Take an instance in Press whose tick counter has not passed
    [LONG_TICKS], and a run of ticks in each of which the debounced level is
    the active level; let [k = LONG_TICKS - ticks].  Tick number [k] of the
    run (counted from 0) is the first in which the counter exceeds
    [LONG_TICKS]: it emits exactly LongPressStart, the ticks before it emit
    nothing, and every tick after it emits exactly LongPressHold.  Once in
    LongHold, the tick in which the debounced level is no longer active
    emits exactly PressUp and goes to Idle. *)
Theorem sustained_press (levels : list Z) (h : Button) :
  state h = BTN_STATE_PRESS ->
  0 <= ticks h <= LONG_TICKS ->
  level_stays_active levels h ->
  let k := Z.to_nat (LONG_TICKS - ticks h) in
  let g := run_state levels h in
  run_events levels h = map (long_press_events k) (seq 0 (length levels)) /\
  (forall (j : nat) (x : Z),
     levels !! j = Some x -> (j <= k)%nat ->
     (LONG_TICKS < ticks (debounced x (run_state (take j levels) h))
      <-> j = k)) /\
  state g = (if (length levels <=? k)%nat then BTN_STATE_PRESS
             else BTN_STATE_LONG_HOLD) /\
  ((k < length levels)%nat ->
     run_events levels h =
       replicate k [] ++ [BTN_LONG_PRESS_START]
         :: replicate (length levels - S k) [BTN_LONG_PRESS_HOLD] /\
     forall x : Z,
       button_level (debounced x g) <> active_level g ->
       tick_events x g = [BTN_PRESS_UP] /\
       state (tick x g) = BTN_STATE_IDLE).
Proof.
  intros Hs Ht Hact k g.
  destruct (press_run levels h Hs Ht Hact) as [Hev Hst].
  fold k in Hev, Hst. fold g in Hst.
  split; [exact Hev|]. split; [|split; [exact Hst|]].
  - intros j x Hj Hjk.
    apply lookup_lt_Some in Hj.
    destruct (press_prefix j levels h Hs Ht Hact Hjk ltac:(lia)) as [Hsj Htj].
    rewrite debounced_ticks, Hsj, Htj. cbn.
    subst k. rewrite LONG_TICKS_eq in *. rewrite Z.mod_small by lia.
    lia.
  - intros Hk. split.
    + rewrite Hev. apply long_press_events_split, Hk.
    + intros x Hx.
      destruct (Nat.leb_spec (length levels) k); [lia|].
      destruct (long_hold_release x g Hst Hx) as [H1 H2]. auto.
Qed.

Lemma sustained_press_witness :
  let h := mkButton 198 1 0 BTN_STATE_PRESS 0 1 1 0 (fun _ => None) None in
  (state h = BTN_STATE_PRESS /\ 0 <= ticks h <= LONG_TICKS /\
   level_stays_active [1; 1; 0; 1; 1] h) /\
  run_events [1; 1; 0; 1; 1] h =
    [[]; []; [BTN_LONG_PRESS_START]; [BTN_LONG_PRESS_HOLD];
     [BTN_LONG_PRESS_HOLD]].
Proof.
  cbv zeta.
  assert (Ht : 0 <= 198 <= LONG_TICKS) by (rewrite LONG_TICKS_eq; lia).
  assert (Hact : level_stays_active [1; 1; 0; 1; 1]
            (mkButton 198 1 0 BTN_STATE_PRESS 0 1 1 0 (fun _ => None) None))
    by (cbn; repeat split).
  split; [split; [reflexivity | split; [exact Ht | exact Hact]]|].
  destruct (sustained_press [1; 1; 0; 1; 1]
    (mkButton 198 1 0 BTN_STATE_PRESS 0 1 1 0 (fun _ => None) None)
    eq_refl Ht Hact) as (Hev & _).
  exact Hev.
Defined.

(** ** Lists in the heap *)

Lemma is_list_frame (m m' : gmap loc Button) (l : list loc) (p : ptr) :
  (forall a, a ∈ l -> next <$> m' !! a = next <$> m !! a) ->
  is_list m p l -> is_list m' p l.
Proof.
  revert p. induction l as [|a l IH]; intros p Hsame Hl; [exact Hl|].
  destruct Hl as (-> & b & Hb & Hrest).
  split; [reflexivity|].
  assert (Ha : next <$> m' !! a = next <$> m !! a)
    by (apply Hsame; left).
  rewrite Hb in Ha. destruct (m' !! a) as [b'|] eqn:Hb'; [|discriminate].
  cbn in Ha. injection Ha as Ha.
  exists b'. split; [reflexivity|]. rewrite Ha.
  apply IH; [|exact Hrest]. intros c Hc. apply Hsame. right. exact Hc.
Qed.

Lemma is_list_functional (m : gmap loc Button) (l1 l2 : list loc) (p : ptr) :
  is_list m p l1 -> is_list m p l2 -> l1 = l2.
Proof.
  revert l2 p. induction l1 as [|a l1 IH]; intros [|c l2] p H1 H2; cbn in *.
  - reflexivity.
  - destruct H2 as [H2 _]. congruence.
  - destruct H1 as [H1 _]. congruence.
  - destruct H1 as (-> & b1 & Hb1 & Hr1).
    destruct H2 as (E & b2 & Hb2 & Hr2).
    injection E as <-. rewrite Hb1 in Hb2. injection Hb2 as <-.
    f_equal. eapply IH; eassumption.
Qed.

Lemma is_list_suffix (m : gmap loc Button) (l1 l2 : list loc) (p : ptr) :
  is_list m p (l1 ++ l2) -> exists q, is_list m q l2.
Proof.
  revert p. induction l1 as [|a l1 IH]; intros p H; [eauto|].
  destruct H as (_ & b & _ & Hrest). eapply IH, Hrest.
Qed.

(** A list that ends in [NULL] meets no object twice. *)
Lemma is_list_NoDup (m : gmap loc Button) (l : list loc) (p : ptr) :
  is_list m p l -> NoDup l.
Proof.
  revert p. induction l as [|a l IH]; intros p H; [constructor|].
  pose proof H as (-> & b & Hb & Hrest).
  constructor; [|eapply IH, Hrest].
  intros Hin. apply list_elem_of_split in Hin as (l1 & l2 & ->).
  destruct (is_list_suffix m l1 (a :: l2) _ Hrest) as (q & Hq).
  pose proof Hq as (-> & _).
  pose proof (is_list_functional m _ _ _ H Hq) as E.
  apply (f_equal length) in E. cbn in E. rewrite length_app in E. cbn in E. lia.
Qed.

Lemma start_scan_spec (m : gmap loc Button) (l : list loc) (p : ptr)
    (h : loc) (fuel : nat) :
  is_list m p l -> (length l <= fuel)%nat ->
  start_scan fuel m p h = Some (bool_decide (h ∈ l)).
Proof.
  revert p fuel. induction l as [|a l IH]; intros p fuel Hl Hf.
  - cbn in Hl. subst p. destruct fuel; cbn; rewrite bool_decide_eq_false_2;
      try reflexivity; apply not_elem_of_nil.
  - destruct Hl as (-> & b & Hb & Hrest).
    destruct fuel as [|fuel]; [cbn in Hf; lia|].
    cbn [start_scan]. destruct (decide (a = h)) as [->|Hne].
    + rewrite bool_decide_eq_true_2; [reflexivity | left].
    + rewrite Hb, (IH _ fuel Hrest) by (cbn in Hf; lia).
      f_equal. apply bool_decide_ext. rewrite elem_of_cons.
      split; [auto | intros [E|E]; [congruence | exact E]].
Qed.

Lemma same_but_next_refl r : same_but_next r r.
Proof.
  intros c. destruct (heap r !! c) as [b|]; [|exact I].
  destruct b; reflexivity.
Qed.

Lemma filter_absent (h : loc) (l : list loc) :
  h ∉ l -> filter (λ a, a ≠ h) l = l.
Proof.
  induction l as [|a l IH]; intros Hnot; [reflexivity|].
  apply not_elem_of_cons in Hnot as [Hne Hnot].
  rewrite filter_cons_True by congruence. f_equal. apply IH, Hnot.
Qed.

(** The loop of [button_stop], started at the link [curr] from which the
    list [l] hangs. *)
Lemma stop_loop_spec (h : loc) (l : list loc) :
  forall (fuel : nat) (r : Registry) (curr : link) (p : ptr),
  read_link r curr = Some p ->
  is_list (heap r) p l ->
  (forall e, curr = NextLink e -> e ∉ l) ->
  (length l <= fuel)%nat ->
  exists r' p',
    stop_loop fuel r curr h = Some r' /\
    (h ∉ l -> r' = r) /\
    read_link r' curr = Some p' /\
    is_list (heap r') p' (filter (λ a, a ≠ h) l) /\
    (curr <> HeadLink -> head_handle r' = head_handle r) /\
    (forall c, c ∉ l -> curr <> NextLink c -> heap r' !! c = heap r !! c) /\
    same_but_next r r' /\
    (h ∈ l -> next <$> heap r' !! h = Some None).
Proof.
  induction l as [|a l IH]; intros fuel r curr p Hread Hl Hcurr Hf.
  - cbn in Hl. subst p. exists r, None.
    assert (Hstop : stop_loop fuel r curr h = Some r)
      by (destruct fuel; cbn [stop_loop]; rewrite Hread; reflexivity).
    split; [exact Hstop|]. split; [reflexivity|].
    split; [exact Hread|]. split; [reflexivity|].
    split; [reflexivity|]. split; [reflexivity|].
    split; [apply same_but_next_refl|].
    intros H. apply not_elem_of_nil in H. contradiction.
  - pose proof (is_list_NoDup _ _ _ Hl) as Hnd.
    apply NoDup_cons in Hnd as [Hal Hnd].
    destruct Hl as (-> & b & Hb & Hrest).
    destruct (decide (a = h)) as [->|Hne].
    + (* the entry is the handle: unlink it *)
      set (r1 := write_link r curr (next b)).
      set (r2 := mkRegistry (head_handle r1)
                   (alter (set_next None) h (heap r1))).
      assert (Hcell : forall e, curr = NextLink e -> e <> h).
      { intros e He ->. apply (Hcurr _ He). left. }
      assert (Hr1h : heap r1 !! h = Some b).
      { subst r1. destruct curr as [|e]; cbn; [exact Hb|].
        rewrite lookup_alter_ne; [exact Hb|]. apply Hcell. reflexivity. }
      assert (Hstop : stop_loop fuel r curr h = Some r2).
      { destruct fuel; cbn [stop_loop]; rewrite Hread;
          rewrite decide_True by reflexivity; rewrite Hb; reflexivity. }
      exists r2, (next b). rewrite Hstop.
      split; [reflexivity|].
      split; [intros Hnot; exfalso; apply Hnot; left|].
      assert (Hread2 : read_link r2 curr = Some (next b)).
      { subst r2 r1. destruct curr as [|e]; cbn; [reflexivity|].
        cbn in Hread.
        rewrite lookup_alter_ne
          by (intros E; apply (Hcell e eq_refl); symmetry; exact E).
        rewrite lookup_alter_eq.
        destruct (heap r !! e); [reflexivity | discriminate]. }
      split; [exact Hread2|].
      assert (Hother : forall c, c <> h -> curr <> NextLink c ->
                heap r2 !! c = heap r !! c).
      { intros c Hc1 Hc2. subst r2 r1. cbn.
        rewrite lookup_alter_ne by congruence.
        destruct curr as [|e]; cbn; [reflexivity|].
        rewrite lookup_alter_ne by congruence. reflexivity. }
      split.
      { rewrite filter_cons_False by (intros H; apply H; reflexivity).
        rewrite filter_absent by exact Hal.
        apply (is_list_frame (heap r)); [|exact Hrest].
        intros c Hc. rewrite Hother; [reflexivity | |].
        - intros ->. contradiction.
        - intros ->. apply (Hcurr c eq_refl). right. exact Hc. }
      split.
      { intros Hnh. subst r2 r1. destruct curr; [contradiction | reflexivity]. }
      split.
      { intros c Hc Hc2. apply Hother; [|exact Hc2].
        intros ->. apply Hc. left. }
      split.
      { intros c. subst r2 r1. cbn.
        destruct (decide (c = h)) as [->|Hch].
        - rewrite Hb, lookup_alter_eq. cbn in Hr1h. rewrite Hr1h. cbn.
          destruct b; reflexivity.
        - rewrite lookup_alter_ne by congruence.
          destruct curr as [|e]; cbn.
          + destruct (heap r !! c) as [bc|]; [destruct bc; reflexivity | exact I].
          + destruct (decide (c = e)) as [->|Hce].
            * rewrite lookup_alter_eq.
              destruct (heap r !! e) as [be|]; [destruct be; reflexivity | exact I].
            * rewrite lookup_alter_ne by congruence.
              destruct (heap r !! c) as [bc|]; [destruct bc; reflexivity | exact I]. }
      intros _. subst r2. cbn. rewrite lookup_alter_eq.
      cbn in Hr1h. rewrite Hr1h. reflexivity.
    + (* not the handle: move the cursor to [&entry->next] *)
      destruct fuel as [|fuel]; [cbn in Hf; lia|].
      assert (Hread' : read_link r (NextLink a) = Some (next b))
        by (cbn; rewrite Hb; reflexivity).
      destruct (IH fuel r (NextLink a) (next b) Hread' Hrest)
        as (r' & p' & Hstop & Hsame & Hrd & Hlist & Hhead & Hfr & Hsbn & Hnx).
      { intros e [= <-]. exact Hal. }
      { cbn in Hf. lia. }
      assert (Hstop' : stop_loop (S fuel) r curr h = Some r').
      { cbn [stop_loop]. rewrite Hread, decide_False by exact Hne. exact Hstop. }
      exists r', (Some a). rewrite Hstop'.
      split; [reflexivity|].
      split; [intros Hnot; apply Hsame; intros Hin; apply Hnot; right; exact Hin|].
      split.
      { destruct curr as [|e]; cbn.
        - rewrite Hhead by discriminate. cbn in Hread. exact Hread.
        - cbn in Hread. rewrite Hfr; [exact Hread | |].
          + intros Hin. apply (Hcurr e eq_refl). right. exact Hin.
          + intros [= E]. apply (Hcurr e eq_refl). rewrite <- E. left. }
      split.
      { rewrite filter_cons_True by exact Hne.
        cbn in Hrd. destruct (heap r' !! a) as [b'|] eqn:Hb'; [|discriminate].
        cbn in Hrd. injection Hrd as Hrd.
        split; [reflexivity|]. exists b'. split; [exact Hb'|].
        rewrite Hrd. exact Hlist. }
      split; [intros _; apply Hhead; discriminate|].
      split.
      { intros c Hc Hc2. apply Hfr.
        - intros Hin. apply Hc. right. exact Hin.
        - intros [= ->]. apply Hc. left. }
      split; [exact Hsbn|].
      intros Hin. apply Hnx. apply elem_of_cons in Hin as [->|Hin];
        [contradiction | exact Hin].
Qed.

(** ** C6: [button_start] and [button_stop] *)

Lemma filter_unlink (h : loc) (l1 l2 : list loc) :
  NoDup (l1 ++ h :: l2) -> filter (λ a, a ≠ h) (l1 ++ h :: l2) = l1 ++ l2.
Proof.
  intros Hnd. apply NoDup_app in Hnd as (_ & Hdisj & Hnd2).
  apply NoDup_cons in Hnd2 as [Hh2 _].
  rewrite filter_app, filter_cons_False by (intros H; apply H; reflexivity).
  rewrite !filter_absent; [reflexivity | exact Hh2 |].
  intros Hin. apply (Hdisj h Hin). left.
Qed.

(** C6. Let [l] be the active set of [r], in list order, and let [fuel]
    cover its length.
    - [button_start] on [NULL] returns -2 and the memory is unchanged.
    - On a member of [l] it returns -1, a status of its own, and the memory,
      hence the active set with its size and order, is unchanged.
    - On an object that is not a member it returns 0 and the active set
      becomes [h :: l]; the only store is to [h->next].
    - [button_stop] on [NULL] or on a non-member leaves the memory
      unchanged.
    - On a member [h], with [l = l1 ++ h :: l2], the active set becomes
      [l1 ++ l2]: [h] alone is unlinked, [h->next] is [NULL], and only
      [next] fields are written. *)
Theorem registry_start_stop (r : Registry) (l : list loc) (fuel : nat) :
  active_set r l -> (length l <= fuel)%nat ->
  button_start fuel None r = Some (-2, r) /\
  (forall h, h ∈ l -> button_start fuel (Some h) r = Some (-1, r)) /\
  (forall h b, h ∉ l -> heap r !! h = Some b ->
     exists r',
       button_start fuel (Some h) r = Some (0, r') /\
       active_set r' (h :: l) /\
       heap r' = <[h := set_next (head_handle r) b]> (heap r)) /\
  button_stop fuel None r = Some r /\
  (forall h, h ∉ l -> button_stop fuel (Some h) r = Some r) /\
  (forall h l1 l2, l = l1 ++ h :: l2 ->
     exists r',
       button_stop fuel (Some h) r = Some r' /\
       active_set r' (l1 ++ l2) /\
       next <$> heap r' !! h = Some None /\
       same_but_next r r').
Proof.
  intros Hl Hf. unfold active_set in Hl.
  split; [reflexivity|]. split; [|split; [|split; [reflexivity|split]]].
  - intros h Hin. unfold button_start.
    rewrite (start_scan_spec _ l _ h fuel Hl Hf).
    rewrite bool_decide_eq_true_2 by exact Hin. reflexivity.
  - intros h b Hnot Hb. unfold button_start.
    rewrite (start_scan_spec _ l _ h fuel Hl Hf).
    rewrite bool_decide_eq_false_2 by exact Hnot. rewrite Hb.
    eexists. split; [reflexivity|]. split; [|reflexivity].
    unfold active_set. cbn. split; [reflexivity|].
    exists (set_next (head_handle r) b).
    split; [apply lookup_insert_eq|]. cbn.
    apply (is_list_frame (heap r)); [|exact Hl].
    intros a Ha. rewrite lookup_insert_ne; [reflexivity|].
    intros ->. contradiction.
  - intros h Hnot. unfold button_stop.
    destruct (stop_loop_spec h l fuel r HeadLink (head_handle r) eq_refl Hl)
      as (r' & p' & Hstop & Hsame & _); [discriminate | exact Hf |].
    rewrite Hstop, (Hsame Hnot). reflexivity.
  - intros h l1 l2 ->. unfold button_stop.
    destruct (stop_loop_spec h _ fuel r HeadLink (head_handle r) eq_refl Hl)
      as (r' & p' & Hstop & _ & Hrd & Hlist & _ & _ & Hsbn & Hnx);
      [discriminate | exact Hf |].
    exists r'. split; [exact Hstop|].
    rewrite filter_unlink in Hlist by (eapply is_list_NoDup, Hl).
    cbn in Hrd. injection Hrd as <-.
    split; [exact Hlist|]. split; [|exact Hsbn].
    apply Hnx. apply elem_of_app. right. left.
Qed.

Lemma registry_start_stop_witness :
  active_set sample_registry [2%positive; 1%positive] /\
  button_start 2 (Some 1%positive) sample_registry
    = Some (-1, sample_registry) /\
  (exists r', button_start 2 (Some 3%positive) sample_registry = Some (0, r') /\
              active_set r' [3%positive; 2%positive; 1%positive]) /\
  (exists r', button_stop 2 (Some 2%positive) sample_registry = Some r' /\
              active_set r' [1%positive]).
Proof.
  assert (Hl : active_set sample_registry [2%positive; 1%positive]).
  { split; [reflexivity|]. eexists. split; [reflexivity|].
    split; [reflexivity|]. eexists. split; [reflexivity|]. reflexivity. }
  assert (Hf : (length [2%positive; 1%positive] <= 2)%nat) by (cbn; lia).
  destruct (registry_start_stop sample_registry _ 2 Hl Hf)
    as (_ & Hdup & Hnew & _ & _ & Hdel).
  split; [exact Hl|]. split; [|split].
  - apply Hdup. right. left.
  - destruct (Hnew 3%positive (init_button 1 0)) as (r' & Hs & Ha & _).
    + intros Hin. apply elem_of_cons in Hin as [Hin|Hin]; [discriminate|].
      apply elem_of_cons in Hin as [Hin|Hin]; [discriminate|].
      apply not_elem_of_nil in Hin. exact Hin.
    + reflexivity.
    + exists r'. split; [exact Hs | exact Ha].
  - destruct (Hdel 2%positive [] [1%positive] eq_refl) as (r' & Hs & Ha & _).
    exists r'. split; [exact Hs | exact Ha].
Defined.

(** ** The fields stay within their widths *)

Lemma init_button_in_range a i :
  0 <= i < 256 -> in_range (init_button a i).
Proof.
  intros Hi. pose proof (Z.mod_pos_bound a 2 ltac:(lia)).
  constructor; cbn; unfold BTN_STATE_IDLE; try lia.
  destruct (a =? 0); lia.
Qed.

Lemma debounced_in_range x h : in_range h -> in_range (debounced x h).
Proof.
  intros [Ht Hr He Hs Hd Ha Hl Hi].
  unfold debounced, debounce, count_tick.
  assert (0 <= (ticks h + 1) mod 65536 < 65536) by (apply Z.mod_pos_bound; lia).
  assert (0 <= (debounce_cnt h + 1) mod 8 < 8) by (apply Z.mod_pos_bound; lia).
  assert (0 <= x mod 2 < 2) by (apply Z.mod_pos_bound; lia).
  destruct (_ <? _); cbn; destruct (negb _); cbn;
    try destruct (DEBOUNCE_TICKS <=? _); constructor; cbn; lia.
Qed.

Lemma state_machine_in_range h :
  in_range h -> in_range (fst (state_machine h)).
Proof.
  intros [Ht Hr He Hs Hd Ha Hl Hi].
  assert (0 <= (repeat h + 1) mod 16 < 16) by (apply Z.mod_pos_bound; lia).
  destruct (state_cases h) as [Hc|[Hc|[Hc|[Hc|[Hc|Hc]]]]];
    try (unfold state_machine; rewrite Hc; cbv iota zeta;
         cbn [ticks repeat set_event];
         repeat match goal with
                | |- context [if ?b then _ else _] => destruct b
                end; constructor; cbn;
         unfold BTN_STATE_IDLE, BTN_STATE_PRESS, BTN_STATE_RELEASE,
           BTN_STATE_REPEAT, BTN_STATE_LONG_HOLD; lia).
  rewrite state_machine_default by exact Hc.
  constructor; cbn; unfold BTN_STATE_IDLE; lia.
Qed.

Lemma tick_in_range x h : in_range h -> in_range (tick x h).
Proof.
  intros H. unfold tick. rewrite button_handler_eq.
  apply state_machine_in_range, debounced_in_range, H.
Qed.

Lemma reachable_in_range h : reachable h -> in_range h.
Proof.
  induction 1 as [a i Ha Hi | x h Hh IH Hx].
  - apply init_button_in_range, Hi.
  - apply tick_in_range, IH.
Qed.

(** ** [button_ticks] visits the active set once, in order *)

Lemma button_handler_next x h : next (fst (button_handler x h)) = next h.
Proof.
  rewrite button_handler_eq.
  assert (Hd : next (debounced x h) = next h).
  { unfold debounced, debounce, count_tick.
    destruct (_ <? _); cbn; destruct (negb _); cbn;
      try destruct (DEBOUNCE_TICKS <=? _); reflexivity. }
  rewrite <- Hd. generalize (debounced x h) as d. intros d.
  destruct (state_cases d) as [Hc|[Hc|[Hc|[Hc|[Hc|Hc]]]]];
    try (unfold state_machine; rewrite Hc; cbv iota zeta;
         cbn [ticks repeat set_event];
         repeat match goal with
                | |- context [if ?b then _ else _] => destruct b
                end; reflexivity).
  rewrite state_machine_default by exact Hc. reflexivity.
Qed.

Lemma button_ticks_from_spec (read : loc -> Z) (l : list loc) :
  forall (fuel : nat) (m : gmap loc Button) (p : ptr),
  is_list m p l -> (length l <= fuel)%nat ->
  exists m' logs,
    button_ticks_from fuel read m p = Some (m', logs) /\
    map fst logs = l /\
    is_list m' p l /\
    (forall c, c ∉ l -> m' !! c = m !! c).
Proof.
  induction l as [|a l IH]; intros fuel m p Hl Hf.
  - cbn in Hl. subst p. exists m, [].
    destruct fuel; cbn; repeat split; reflexivity.
  - pose proof (is_list_NoDup _ _ _ Hl) as Hnd.
    apply NoDup_cons in Hnd as [Hal _].
    destruct Hl as (-> & b & Hb & Hrest).
    destruct fuel as [|fuel]; [cbn in Hf; lia|].
    cbn [button_ticks_from]. rewrite Hb.
    pose proof (button_handler_next (read a) b) as Hnext.
    destruct (button_handler (read a) b) as [b' log]. cbn in Hnext.
    destruct (IH fuel (<[a := b']> m) (next b')) as (m' & logs & -> & Hk & Hl' & Hfr).
    { rewrite Hnext. apply (is_list_frame m); [|exact Hrest].
      intros c Hc. rewrite lookup_insert_ne; [reflexivity|].
      intros ->. contradiction. }
    { cbn in Hf. lia. }
    exists m', ((a, log) :: logs).
    split; [reflexivity|]. split; [cbn; rewrite Hk; reflexivity|].
    split.
    + split; [reflexivity|]. exists b'.
      split; [rewrite (Hfr a Hal); apply lookup_insert_eq | exact Hl'].
    + intros c Hc. apply not_elem_of_cons in Hc as [Hca Hcl].
      rewrite (Hfr c Hcl). apply lookup_insert_ne. congruence.
Qed.

Lemma button_ticks_spec (read : loc -> Z) (r : Registry) (l : list loc)
    (fuel : nat) :
  active_set r l -> (length l <= fuel)%nat ->
  exists r' logs,
    button_ticks fuel read r = Some (r', logs) /\
    map fst logs = l /\ active_set r' l.
Proof.
  intros Hl Hf. unfold button_ticks.
  destruct (button_ticks_from_spec read l fuel _ _ Hl Hf)
    as (m' & logs & -> & Hk & Hl' & _).
  exists (mkRegistry (head_handle r) m'), logs.
  split; [reflexivity|]. split; [exact Hk | exact Hl'].
Qed.


(** ** The scenarios of the specification, run from [button_init] *)

(** Scenario A: the line is held active through the debounce and for
    [LONG_TICKS + 1] more ticks and beyond, then released. *)
Example scenario_long_press :
  concat (run_events (replicate 3 1 ++ replicate 203 1 ++ replicate 3 0)
                     (init_button 1 0)) =
  [BTN_PRESS_DOWN; BTN_LONG_PRESS_START; BTN_LONG_PRESS_HOLD;
   BTN_LONG_PRESS_HOLD; BTN_LONG_PRESS_HOLD; BTN_LONG_PRESS_HOLD;
   BTN_PRESS_UP].
Proof. vm_compute. reflexivity. Qed.

(** Scenario B: two short press/release cycles, then a quiet period. *)
Example scenario_double_click :
  let levels := replicate 3 1 ++ replicate 3 0 ++ replicate 3 1
                ++ replicate 3 0 ++ replicate 61 0 in
  concat (run_events levels (init_button 1 0)) =
    [BTN_PRESS_DOWN; BTN_PRESS_UP; BTN_PRESS_DOWN; BTN_PRESS_REPEAT;
     BTN_PRESS_UP; BTN_DOUBLE_CLICK] /\
  button_get_event (Some (run_state levels (init_button 1 0)))
    = ev_code BTN_DOUBLE_CLICK /\
  button_get_repeat_count (Some (run_state levels (init_button 1 0))) = 2.
Proof. vm_compute. repeat split; reflexivity. Qed.

(** Scenario C: one short press/release cycle, then a quiet period. *)
Example scenario_single_click :
  let levels := replicate 3 1 ++ replicate 3 0 ++ replicate 61 0 in
  concat (run_events levels (init_button 1 0)) =
    [BTN_PRESS_DOWN; BTN_PRESS_UP; BTN_SINGLE_CLICK] /\
  button_get_event (Some (run_state levels (init_button 1 0)))
    = ev_code BTN_SINGLE_CLICK.
Proof. vm_compute. split; reflexivity. Qed.

(** Three short cycles end without a click event. *)
Example scenario_triple_tap :
  let levels := replicate 3 1 ++ replicate 3 0 ++ replicate 3 1
                ++ replicate 3 0 ++ replicate 3 1 ++ replicate 3 0
                ++ replicate 61 0 in
  concat (run_events levels (init_button 1 0)) =
    [BTN_PRESS_DOWN; BTN_PRESS_UP; BTN_PRESS_DOWN; BTN_PRESS_REPEAT;
     BTN_PRESS_UP; BTN_PRESS_DOWN; BTN_PRESS_REPEAT; BTN_PRESS_UP] /\
  state (run_state levels (init_button 1 0)) = BTN_STATE_IDLE.
Proof. vm_compute. split; reflexivity. Qed.

(** * Further properties of the code *)

(** ** [button_init] *)

(** X1. [button_init] writes nothing when the handle or the HAL function is
    [NULL].  Otherwise the instance is Idle with no event, a zero repeat
    count, no callback and a [NULL] link.  With an active level of 0 or 1 it
    is not pressed; the 1-bit field keeps the low bit of [active_level]
    while [button_level] takes [!active_level], so an even non-zero
    [active_level] leaves the instance reporting pressed. *)
Theorem button_init_result (h0 : Button) (f : positive) (a i : Z) :
  0 <= a < 256 ->
  button_init None (Some f) a i = None /\
  button_init (Some h0) None a i = None /\
  exists h,
    button_init (Some h0) (Some f) a i = Some h /\
    state h = BTN_STATE_IDLE /\
    button_get_event (Some h) = ev_code BTN_NONE_PRESS /\
    button_get_repeat_count (Some h) = 0 /\
    (forall ev, cb h ev = None) /\
    next h = None /\
    (a = 0 \/ a = 1 ->
       active_level h = a /\ button_is_pressed (Some h) = 0) /\
    (button_is_pressed (Some h) = 1 <-> a <> 0 /\ a mod 2 = 0).
Proof.
  intros Ha. split; [reflexivity|]. split; [reflexivity|].
  exists (init_button a i). split; [reflexivity|].
  do 5 (split; [reflexivity|]).
  unfold button_is_pressed, init_button. cbn [button_level active_level].
  split.
  - intros [-> | ->]; split; reflexivity.
  - pose proof (Z.mod_pos_bound a 2 ltac:(lia)).
    destruct (Z.eqb_spec a 0) as [->|Hne].
    + cbn. split; [discriminate | intros [H0 _]; contradiction].
    + destruct (Z.eqb_spec 0 (a mod 2)) as [E|E].
      * split; [intros _; split; [exact Hne | lia] | reflexivity].
      * split; [discriminate | intros [_ H0]; lia].
Qed.

Lemma button_init_result_witness :
  (exists h, button_init (Some (init_button 0 0)) (Some 1%positive) 1 7 = Some h /\
             button_is_pressed (Some h) = 0) /\
  (exists h, button_init (Some (init_button 0 0)) (Some 1%positive) 2 7 = Some h /\
             button_is_pressed (Some h) = 1).
Proof.
  split.
  - destruct (button_init_result (init_button 0 0) 1%positive 1 7 ltac:(lia))
      as (_ & _ & h & Hh & _ & _ & _ & _ & _ & Hbin & _).
    exists h. split; [exact Hh|]. apply Hbin. right. reflexivity.
  - destruct (button_init_result (init_button 0 0) 1%positive 2 7 ltac:(lia))
      as (_ & _ & h & Hh & _ & _ & _ & _ & _ & _ & Hiff).
    exists h. split; [exact Hh|]. apply Hiff. split; [lia | reflexivity].
Defined.

(** ** The log of a tick *)

Lemma state_machine_log (d : Button) :
  (length (snd (state_machine d)) <= 2)%nat.
Proof.
  destruct (state_cases d) as [Hc|[Hc|[Hc|[Hc|[Hc|Hc]]]]];
    try (unfold state_machine; rewrite Hc; cbv iota zeta;
         cbn [ticks repeat set_event];
         repeat match goal with
                | |- context [if ?b then _ else _] => destruct b
                end;
         cbn; lia).
  rewrite state_machine_default by exact Hc. cbn. lia.
Qed.

Lemma state_machine_log_cb (d : Button) (fr : Fire) :
  fr ∈ snd (state_machine d) ->
  fire_cb fr = cb d (fire_ev fr) /\
  ev_code (fire_ev fr) < ev_code BTN_EVENT_COUNT.
Proof.
  destruct (state_cases d) as [Hc|[Hc|[Hc|[Hc|[Hc|Hc]]]]];
    try (unfold state_machine; rewrite Hc; cbv iota zeta;
         cbn [ticks repeat set_event];
         repeat match goal with
                | |- context [if ?b then _ else _] => destruct b
                end;
         cbn; intros Hin;
         repeat (apply elem_of_cons in Hin as [->|Hin]);
         try (apply not_elem_of_nil in Hin; contradiction);
         cbn; split; reflexivity).
  rewrite state_machine_default by exact Hc. cbn.
  intros Hin. apply not_elem_of_nil in Hin. contradiction.
Qed.

(** X2. Every expansion of [EVENT_CB] in a tick indexes [cb] below
    [BTN_EVENT_COUNT], the size of the array, tests the callback the instance
    held before the tick, and a tick expands it at most twice. *)
Theorem event_cb_in_bounds (x : Z) (h : Button) :
  (length (snd (button_handler x h)) <= 2)%nat /\
  forall fr, fr ∈ snd (button_handler x h) ->
    0 <= ev_code (fire_ev fr) < ev_code BTN_EVENT_COUNT /\
    fire_cb fr = cb h (fire_ev fr).
Proof.
  rewrite button_handler_eq. split.
  - apply state_machine_log.
  - intros fr Hin. destruct (state_machine_log_cb _ _ Hin) as [Hcb Hlt].
    rewrite debounced_cb in Hcb. split; [|exact Hcb].
    split; [destruct (fire_ev fr); cbn; lia | exact Hlt].
Qed.

(** ** [button_attach] and [button_detach] *)



(** X4. [button_attach] and [button_detach] write nothing for a [NULL]
    handle and for the two enumerators that are no event kinds,
    [BTN_EVENT_COUNT] and [BTN_NONE_PRESS]: the array [cb] is never indexed
    at or past its size. *)
Theorem attach_rejects_out_of_range (h : Button) (ev : ButtonEvent)
    (f : option BtnCallback) :
  button_attach None ev f = None /\
  button_detach None ev = None /\
  (button_attach (Some h) ev f = None <->
     ev = BTN_EVENT_COUNT \/ ev = BTN_NONE_PRESS) /\
  (button_detach (Some h) ev = None <->
     ev = BTN_EVENT_COUNT \/ ev = BTN_NONE_PRESS).
Proof.
  split; [reflexivity|]. split; [reflexivity|].
  split; destruct ev; cbn; split;
    try discriminate; try (intros [H|H]; discriminate);
    try (intros _; reflexivity); auto.
Qed.

(** ** Classification does not depend on the callbacks *)

Lemma count_tick_automaton h1 h2 :
  automaton h1 = automaton h2 ->
  automaton (count_tick h1) = automaton (count_tick h2).
Proof.
  destruct h1, h2. unfold automaton. cbn. intros [= -> -> -> -> -> -> ->].
  unfold count_tick. cbn. destruct (_ <? _); reflexivity.
Qed.

Lemma debounce_automaton x h1 h2 :
  automaton h1 = automaton h2 ->
  automaton (debounce x h1) = automaton (debounce x h2).
Proof.
  destruct h1, h2. unfold automaton. cbn. intros [= -> -> -> -> -> -> ->].
  unfold debounce. cbn. destruct (negb _); cbn;
    try destruct (DEBOUNCE_TICKS <=? _); reflexivity.
Qed.

Lemma state_machine_automaton h1 h2 :
  automaton h1 = automaton h2 ->
  automaton (fst (state_machine h1)) = automaton (fst (state_machine h2)) /\
  fired (snd (state_machine h1)) = fired (snd (state_machine h2)).
Proof.
  intros H.
  assert (Hs : state h1 = state h2)
    by (unfold automaton in H; congruence).
  destruct h1, h2. unfold automaton in H. cbn in H, Hs.
  injection H as -> -> -> _ -> -> ->. subst.
  match goal with
  | |- context [mkButton _ _ _ ?s _ _ _ _ ?c1 _] =>
      destruct (state_cases (mkButton 0 0 0 s 0 0 0 0 c1 None))
        as [Hc|[Hc|[Hc|[Hc|[Hc|Hc]]]]]; cbn in Hc
  end;
    try (subst; unfold state_machine; cbn [state]; cbv iota zeta;
         cbn [ticks repeat set_event button_level active_level];
         repeat match goal with
                | |- context [if ?b then _ else _] => destruct b
                end; cbn; split; reflexivity).
  rewrite !state_machine_default by exact Hc. cbn. split; reflexivity.
Qed.

(** X5. Two instances that differ in their callbacks (or link or id) only
    classify alike: after a tick with the same level their automaton fields
    agree and the tick emits the same events.  Registering or removing a
    callback never changes what is recognised. *)
Theorem classification_ignores_callbacks (x : Z) (h1 h2 : Button) :
  automaton h1 = automaton h2 ->
  automaton (tick x h1) = automaton (tick x h2) /\
  tick_events x h1 = tick_events x h2.
Proof.
  intros H. unfold tick, tick_events. rewrite !button_handler_eq.
  apply state_machine_automaton. unfold debounced.
  apply debounce_automaton, count_tick_automaton, H.
Qed.

Lemma classification_ignores_callbacks_witness :
  let h1 := mkButton 0 0 8 0 2 1 0 0 (fun _ => None) None in
  let h2 := mkButton 0 0 8 0 2 1 0 9 (fun _ => Some 3%positive) (Some 4%positive) in
  tick_events 1 h1 = tick_events 1 h2.
Proof.
  cbv zeta.
  apply (classification_ignores_callbacks 1
    (mkButton 0 0 8 0 2 1 0 0 (fun _ => None) None)
    (mkButton 0 0 8 0 2 1 0 9 (fun _ => Some 3%positive) (Some 4%positive))).
  reflexivity.
Defined.

(** ** [button_reset] *)

(** X6. [button_reset] does nothing on [NULL]; otherwise it puts the
    automaton in Idle with the counters at 0 and no event, and keeps the
    stable level, the active level, the callbacks and the link.  Since the
    stable level is kept, a reset while the key is down is followed by a new
    PressDown on the next tick that still reads the key down; a reset while
    the key is up is followed by a silent tick. *)
Theorem reset_then_tick (x : Z) (h : Button) :
  button_reset None = None /\
  exists h',
    button_reset (Some h) = Some h' /\
    state h' = BTN_STATE_IDLE /\ ticks h' = 0 /\ repeat h' = 0 /\
    event h' = ev_code BTN_NONE_PRESS /\ debounce_cnt h' = 0 /\
    button_level h' = button_level h /\ active_level h' = active_level h /\
    cb h' = cb h /\ next h' = next h /\
    (x = button_level h -> button_level h = active_level h ->
       tick_events x h' = [BTN_PRESS_DOWN] /\
       state (tick x h') = BTN_STATE_PRESS /\ repeat (tick x h') = 1) /\
    (x = button_level h -> button_level h <> active_level h ->
       tick_events x h' = [] /\ state (tick x h') = BTN_STATE_IDLE).
Proof.
  split; [reflexivity|]. eexists. split; [reflexivity|].
  do 9 (split; [reflexivity|]).
  destruct h as [t r e s d a l i c n]. cbn.
  split; intros -> Hl; unfold tick, tick_events, button_handler, count_tick,
    debounce, state_machine; cbn; rewrite Z.eqb_refl; cbn.
  - subst. rewrite Z.eqb_refl. cbn. repeat split; reflexivity.
  - destruct (Z.eqb_spec l a); [contradiction|]. cbn. split; reflexivity.
Qed.

Lemma reset_then_tick_witness :
  let h := mkButton 300 1 6 BTN_STATE_LONG_HOLD 0 1 1 0 (fun _ => None) None in
  exists h', button_reset (Some h) = Some h' /\
             tick_events 1 h' = [BTN_PRESS_DOWN].
Proof.
  cbv zeta.
  destruct (reset_then_tick 1
    (mkButton 300 1 6 BTN_STATE_LONG_HOLD 0 1 1 0 (fun _ => None) None))
    as (_ & h' & Hr & _ & _ & _ & _ & _ & _ & _ & _ & _ & Hdown & _).
  exists h'. split; [exact Hr|]. apply Hdown; reflexivity.
Defined.

(** ** The Idle and Press cases *)

(** X7. In Idle the tick counter is not counted.  When the debounced level
    is the active level the tick expands [EVENT_CB] once, for PressDown, and
    the callback is handed the instance before the counters are set: still in
    Idle, with the [repeat] of the previous gesture.  After the tick the
    instance is in Press with [ticks] 0, [repeat] 1 and event PressDown. *)
Theorem idle_press_step (x : Z) (h : Button) :
  state h = BTN_STATE_IDLE ->
  button_level (debounced x h) = active_level h ->
  let seen := set_event (ev_code BTN_PRESS_DOWN) (debounced x h) in
  ticks (debounced x h) = ticks h /\
  snd (button_handler x h) =
    [mkFire BTN_PRESS_DOWN (cb h BTN_PRESS_DOWN) seen] /\
  state seen = BTN_STATE_IDLE /\ repeat seen = repeat h /\
  state (tick x h) = BTN_STATE_PRESS /\ ticks (tick x h) = 0 /\
  repeat (tick x h) = 1 /\ event (tick x h) = ev_code BTN_PRESS_DOWN.
Proof.
  intros Hs Hl seen. subst seen.
  split; [rewrite debounced_ticks, Hs; reflexivity|].
  assert (Hh : button_handler x h =
    (set_state BTN_STATE_PRESS (set_repeat 1 (set_ticks 0
       (set_event (ev_code BTN_PRESS_DOWN) (debounced x h)))),
     [mkFire BTN_PRESS_DOWN (cb h BTN_PRESS_DOWN)
        (set_event (ev_code BTN_PRESS_DOWN) (debounced x h))])).
  { rewrite button_handler_eq. unfold state_machine.
    rewrite debounced_state, Hs. cbv iota.
    rewrite debounced_active_level, Hl, Z.eqb_refl.
    unfold EVENT_CB. cbn. rewrite debounced_cb. reflexivity. }
  unfold tick. rewrite Hh. cbn.
  rewrite debounced_state, debounced_repeat, Hs.
  repeat split; reflexivity.
Qed.

Lemma idle_press_step_witness :
  let h := mkButton 61 2 8 BTN_STATE_IDLE 2 1 0 0 (fun _ => None) None in
  state h = BTN_STATE_IDLE /\
  repeat h = 2 /\ state (tick 1 h) = BTN_STATE_PRESS /\ repeat (tick 1 h) = 1.
Proof.
  cbv zeta.
  destruct (idle_press_step 1
    (mkButton 61 2 8 BTN_STATE_IDLE 2 1 0 0 (fun _ => None) None))
    as (_ & _ & _ & _ & Hst & _ & Hrep & _).
  - reflexivity.
  - vm_compute. reflexivity.
  - split; [reflexivity|]. split; [reflexivity|].
    split; [exact Hst | exact Hrep].
Defined.

(** X8. In Press, with [t] the tick counter as counted in this tick: when
    the debounced level is not the active level the tick emits exactly
    PressUp and goes to Release with [ticks] 0, whatever [t] is; when the
    level is active it emits exactly LongPressStart and goes to LongHold if
    [t > LONG_TICKS], and otherwise emits nothing and stays in Press.  The
    [repeat] count is kept in all three cases. *)
Theorem press_state_step (x : Z) (h : Button) :
  state h = BTN_STATE_PRESS ->
  let t := ticks (debounced x h) in
  (button_level (debounced x h) <> active_level h ->
     tick_events x h = [BTN_PRESS_UP] /\
     state (tick x h) = BTN_STATE_RELEASE /\ ticks (tick x h) = 0 /\
     event (tick x h) = ev_code BTN_PRESS_UP) /\
  (button_level (debounced x h) = active_level h -> LONG_TICKS < t ->
     tick_events x h = [BTN_LONG_PRESS_START] /\
     state (tick x h) = BTN_STATE_LONG_HOLD /\ ticks (tick x h) = t) /\
  (button_level (debounced x h) = active_level h -> t <= LONG_TICKS ->
     tick_events x h = [] /\
     state (tick x h) = BTN_STATE_PRESS /\ ticks (tick x h) = t /\
     event (tick x h) = event h) /\
  repeat (tick x h) = repeat h.
Proof.
  intros Hs t. subst t. enter_case Hs. cbv zeta. cbn [ticks set_event].
  destruct (Z.eqb_spec (button_level (debounced x h)) (active_level h)) as [E|E];
    cbn [negb].
  - split; [intros; contradiction|].
    destruct (Z.ltb_spec LONG_TICKS (ticks (debounced x h))) as [E1|E1]; cbn;
      rewrite ?debounced_state, ?debounced_event, ?debounced_repeat, ?Hs.
    + split; [intros _ _; repeat split; reflexivity|].
      split; [intros _ H; lia | reflexivity].
    + split; [intros _ H; lia|].
      split; [intros _ _; repeat split; reflexivity | reflexivity].
  - cbn. rewrite debounced_repeat.
    split; [intros _; repeat split; reflexivity|].
    split; [intros; contradiction|].
    split; [intros; contradiction | reflexivity].
Qed.

Lemma press_state_step_witness :
  let h := mkButton 40 1 0 BTN_STATE_PRESS 2 1 1 0 (fun _ => None) None in
  state h = BTN_STATE_PRESS /\
  tick_events 0 h = [BTN_PRESS_UP] /\ state (tick 0 h) = BTN_STATE_RELEASE.
Proof.
  cbv zeta.
  destruct (press_state_step 0
    (mkButton 40 1 0 BTN_STATE_PRESS 2 1 1 0 (fun _ => None) None))
    as (Hup & _).
  - reflexivity.
  - destruct Hup as (Hev & Hst & _); [vm_compute; discriminate|].
    split; [reflexivity|]. split; [exact Hev | exact Hst].
Defined.

(** ** Runs in which nothing is to be seen *)

Lemma idle_quiet_step x h :
  state h = BTN_STATE_IDLE ->
  button_level (debounced x h) <> active_level h ->
  state (tick x h) = BTN_STATE_IDLE /\ tick_events x h = [] /\
  snd (button_handler x h) = [] /\
  ticks (tick x h) = ticks h /\ repeat (tick x h) = repeat h /\
  event (tick x h) = ev_code BTN_NONE_PRESS.
Proof.
  intros Hs Hl.
  assert (Ht := debounced_ticks x h). rewrite Hs in Ht. cbn in Ht.
  enter_case Hs.
  destruct (Z.eqb_spec (button_level (debounced x h)) (active_level h));
    [contradiction|].
  cbn. rewrite debounced_state, debounced_repeat, Ht, Hs.
  repeat split; reflexivity.
Qed.

(** X9. An instance in Idle stays there, emits nothing and calls no
    callback for as long as the debounced level is not the active level,
    whatever the raw samples do in between; its tick counter and repeat count
    are not touched, and after the first tick the event field holds the
    'none' value. *)
Theorem idle_stays_quiet (levels : list Z) (h : Button) :
  state h = BTN_STATE_IDLE ->
  level_stays_inactive levels h ->
  let g := run_state levels h in
  run_events levels h = replicate (length levels) [] /\
  state g = BTN_STATE_IDLE /\ ticks g = ticks h /\ repeat g = repeat h /\
  (levels <> [] -> button_get_event (Some g) = ev_code BTN_NONE_PRESS).
Proof.
  revert h. induction levels as [|x xs IH]; intros h Hs Hq; cbv zeta.
  - unfold run_state, run_events. cbn.
    repeat split; try reflexivity; try exact Hs. intros H. contradiction.
  - destruct Hq as [Hl Hrest].
    destruct (idle_quiet_step x h Hs Hl) as (Hs' & Hev & _ & Ht & Hr & He).
    destruct (IH _ Hs' Hrest) as (IHev & IHs & IHt & IHr & IHe).
    rewrite run_state_cons, run_events_cons, Hev, IHev, IHs, IHt, IHr, Ht, Hr.
    do 4 (split; [reflexivity|]). intros _.
    destruct xs as [|y ys]; [exact He | apply IHe; discriminate].
Qed.

Lemma idle_stays_quiet_witness :
  run_events [1; 1; 0; 1; 0; 0] (init_button 1 0) = replicate 6 [] /\
  state (run_state [1; 1; 0; 1; 0; 0] (init_button 1 0)) = BTN_STATE_IDLE.
Proof.
  assert (Hq : level_stays_inactive [1; 1; 0; 1; 0; 0] (init_button 1 0))
    by (cbn; repeat split; discriminate).
  destruct (idle_stays_quiet [1; 1; 0; 1; 0; 0] (init_button 1 0) eq_refl Hq)
    as (Hev & Hs & _).
  split; [exact Hev | exact Hs].
Defined.

Lemma debounce_level_parity x h :
  x mod 2 = button_level h ->
  button_level (debounce x h) = button_level h.
Proof.
  intros Hx. unfold debounce.
  destruct (negb _); [|reflexivity]. cbn.
  destruct (DEBOUNCE_TICKS <=? _); cbn; [exact Hx | reflexivity].
Qed.

Lemma debounced_button_level x h :
  button_level (debounced x h) = button_level (debounce x h).
Proof.
  unfold debounced, count_tick, debounce.
  destruct (_ <? _); cbn; destruct (negb _); cbn;
    try destruct (DEBOUNCE_TICKS <=? _); reflexivity.
Qed.

Lemma tick_active_level x h : active_level (tick x h) = active_level h.
Proof.
  unfold tick. rewrite button_handler_eq.
  rewrite <- (debounced_active_level x h).
  generalize (debounced x h) as d. intros d.
  destruct (state_cases d) as [Hc|[Hc|[Hc|[Hc|[Hc|Hc]]]]];
    try (unfold state_machine; rewrite Hc; cbv iota zeta;
         cbn [ticks repeat set_event];
         repeat match goal with
                | |- context [if ?b then _ else _] => destruct b
                end; reflexivity).
  rewrite state_machine_default by exact Hc. reflexivity.
Qed.

(** X10. The stable level is a 1-bit field: the debounce block commits the
    low bit of the byte the HAL returns.  A HAL that reports the key with
    bytes whose low bit equals the stored inactive level (a masked port bit
    such as 0x10, say) is never seen: the stable level never changes and an
    instance in Idle emits nothing, however long the run. *)
Theorem low_bit_only (levels : list Z) (h : Button) :
  state h = BTN_STATE_IDLE ->
  button_level h <> active_level h ->
  Forall (fun x => x mod 2 = button_level h) levels ->
  button_level (run_state levels h) = button_level h /\
  state (run_state levels h) = BTN_STATE_IDLE /\
  run_events levels h = replicate (length levels) [].
Proof.
  revert h. induction levels as [|x xs IH]; intros h Hs Hl Hall.
  - unfold run_state, run_events. cbn. repeat split; try reflexivity. exact Hs.
  - apply Forall_cons in Hall as [Hx Hxs].
    assert (Hlx : button_level (debounced x h) = button_level h)
      by (rewrite debounced_button_level; apply debounce_level_parity, Hx).
    assert (Hq : button_level (debounced x h) <> active_level h)
      by (rewrite Hlx; exact Hl).
    destruct (idle_quiet_step x h Hs Hq) as (Hs' & Hev & _).
    assert (Hl' : button_level (tick x h) = button_level h)
      by (rewrite tick_button_level; apply debounce_level_parity, Hx).
    destruct (IH (tick x h) Hs') as (IHl & IHs & IHev).
    + rewrite Hl', tick_active_level. exact Hl.
    + rewrite Hl'. exact Hxs.
    + rewrite run_state_cons, run_events_cons, Hev, IHl, IHs, IHev, Hl'.
      repeat split; reflexivity.
Qed.

Lemma low_bit_only_witness :
  run_events (replicate 10 16) (init_button 1 0) = replicate 10 [] /\
  button_level (run_state (replicate 10 16) (init_button 1 0)) = 0.
Proof.
  destruct (low_bit_only (replicate 10 16) (init_button 1 0)) as (Hl & _ & Hev).
  - reflexivity.
  - cbn. discriminate.
  - apply Forall_replicate. reflexivity.
  - split; [exact Hev | exact Hl].
Defined.

(** ** Invariants of the handler *)

Lemma tick_state_valid x h :
  BTN_STATE_IDLE <= state (tick x h) <= BTN_STATE_LONG_HOLD.
Proof.
  unfold tick. rewrite button_handler_eq.
  generalize (debounced x h) as d. intros d.
  unfold BTN_STATE_IDLE, BTN_STATE_LONG_HOLD.
  destruct (state_cases d) as [Hc|[Hc|[Hc|[Hc|[Hc|Hc]]]]];
    try (unfold state_machine; rewrite Hc; cbv iota zeta;
         cbn [ticks repeat set_event];
         repeat match goal with
                | |- context [if ?b then _ else _] => destruct b
                end; cbn; rewrite ?Hc;
         unfold BTN_STATE_IDLE, BTN_STATE_PRESS, BTN_STATE_RELEASE,
           BTN_STATE_REPEAT, BTN_STATE_LONG_HOLD; lia).
  rewrite state_machine_default by exact Hc. cbn. unfold BTN_STATE_IDLE. lia.
Qed.

Lemma state_machine_pressed d :
  BTN_STATE_IDLE <= state d <= BTN_STATE_LONG_HOLD ->
  (pressed_state (state (fst (state_machine d))) <->
   button_level d = active_level d).
Proof.
  intros Hv. unfold pressed_state.
  destruct (state_cases d) as [Hc|[Hc|[Hc|[Hc|[Hc|Hc]]]]]; [| | | | |contradiction];
    unfold state_machine; rewrite Hc; cbv iota zeta;
    cbn [ticks repeat set_event];
    destruct (Z.eqb_spec (button_level d) (active_level d)) as [E|E];
    cbn [negb];
    repeat match goal with
           | |- context [if ?b then _ else _] => destruct b
           end; cbn; rewrite ?Hc;
    unfold BTN_STATE_IDLE, BTN_STATE_PRESS, BTN_STATE_RELEASE,
      BTN_STATE_REPEAT, BTN_STATE_LONG_HOLD;
    (split; [intros H; first [exact E | exfalso; lia] |
             intros H; first [contradiction | lia]]).
Qed.

(** X11. From an instance in one of the five states, after every tick the
    automaton is in Press, Repeat or LongHold exactly when
    [button_is_pressed] reports 1: the state and the stable level never
    disagree about the key being down. *)
Theorem pressed_state_iff_is_pressed (levels : list Z) (x : Z) (h : Button) :
  BTN_STATE_IDLE <= state h <= BTN_STATE_LONG_HOLD ->
  let g := run_state (levels ++ [x]) h in
  pressed_state (state g) <-> button_is_pressed (Some g) = 1.
Proof.
  intros Hv g. subst g. rewrite run_state_app.
  change (run_state [x] ?k) with (tick x k).
  assert (Hk : BTN_STATE_IDLE <= state (run_state levels h)
               <= BTN_STATE_LONG_HOLD).
  { destruct levels as [|y ys] using rev_ind; [exact Hv|].
    rewrite run_state_app. change (run_state [y] ?k) with (tick y k).
    apply tick_state_valid. }
  set (k := run_state levels h) in *.
  unfold button_is_pressed.
  rewrite tick_active_level, tick_button_level, <- debounced_button_level,
    <- (debounced_active_level x k).
  unfold tick. rewrite button_handler_eq.
  rewrite state_machine_pressed by (rewrite debounced_state; exact Hk).
  destruct (Z.eqb_spec (button_level (debounced x k))
                       (active_level (debounced x k))) as [E|E].
  - split; [reflexivity | intros _; exact E].
  - split; [intros H; contradiction | discriminate].
Qed.

Lemma pressed_state_iff_is_pressed_witness :
  let g := run_state ([1; 1] ++ [1]) (init_button 1 0) in
  pressed_state (state g) /\ button_is_pressed (Some g) = 1.
Proof.
  cbv zeta.
  assert (Hv : BTN_STATE_IDLE <= state (init_button 1 0) <= BTN_STATE_LONG_HOLD)
    by (cbn; unfold BTN_STATE_IDLE, BTN_STATE_LONG_HOLD; lia).
  pose proof (pressed_state_iff_is_pressed [1; 1] 1 (init_button 1 0) Hv) as H.
  cbv zeta in H.
  assert (Hp : button_is_pressed
            (Some (run_state ([1; 1] ++ [1]) (init_button 1 0))) = 1)
    by reflexivity.
  split; [apply H; exact Hp | exact Hp].
Defined.

Lemma ticks_bounded_tick x h : ticks_bounded h -> ticks_bounded (tick x h).
Proof.
  intros (Hr & Hp & Hrel & Hrep).
  rewrite LONG_TICKS_eq in Hp. rewrite SHORT_TICKS_eq in Hrel, Hrep.
  pose proof (debounced_ticks x h) as Ht.
  pose proof (Z.mod_pos_bound (ticks h + 1) 65536 ltac:(lia)) as Hm.
  unfold ticks_bounded. rewrite LONG_TICKS_eq, SHORT_TICKS_eq.
  unfold BTN_STATE_PRESS, BTN_STATE_RELEASE, BTN_STATE_REPEAT in *.
  destruct (state_cases h) as [Hs|[Hs|[Hs|[Hs|[Hs|Hs]]]]];
    try (rewrite Hs in Ht; cbn in Ht).
  - enter_case Hs. destruct (_ =? _); cbn; rewrite ?debounced_state, ?Hs, ?Ht;
      unfold BTN_STATE_IDLE; repeat split; intros; lia.
  - rewrite Z.mod_small in Ht by (specialize (Hp Hs); lia).
    specialize (Hp Hs).
    enter_case Hs. rewrite Ht, LONG_TICKS_eq.
    destruct (_ =? _); cbn [negb];
      [destruct (Z.ltb_spec 200 (ticks h + 1))|]; cbn;
      rewrite ?debounced_state, ?Hs, ?Ht;
      unfold BTN_STATE_PRESS; repeat split; intros; lia.
  - rewrite Z.mod_small in Ht by (specialize (Hrel Hs); lia).
    specialize (Hrel Hs).
    enter_case Hs. rewrite Ht, SHORT_TICKS_eq.
    destruct (_ =? _);
      [|destruct (Z.ltb_spec 60 (ticks h + 1));
        [destruct (repeat h =? 1); [|destruct (repeat h =? 2)]|]]; cbn;
      rewrite ?debounced_state, ?Hs, ?Ht;
      unfold BTN_STATE_RELEASE; repeat split; intros; lia.
  - rewrite Z.mod_small in Ht by (specialize (Hrep Hs); lia).
    specialize (Hrep Hs).
    enter_case Hs. cbv zeta. cbn [ticks set_event].
    rewrite Ht, SHORT_TICKS_eq.
    destruct (_ =? _); cbn [negb];
      [destruct (Z.ltb_spec 60 (ticks h + 1))
      |destruct (Z.ltb_spec (ticks h + 1) 60)]; cbn;
      rewrite ?debounced_state, ?Hs, ?Ht;
      unfold BTN_STATE_REPEAT; repeat split; intros; lia.
  - enter_case Hs. destruct (_ =? _); cbn; rewrite ?debounced_state, ?Hs, ?Ht;
      unfold BTN_STATE_LONG_HOLD; repeat split; intros; lia.
  - unfold tick. rewrite button_handler_eq, state_machine_default
      by (rewrite debounced_state; exact Hs).
    cbn. rewrite Ht. unfold BTN_STATE_IDLE.
    destruct (0 <? state h); repeat split; intros; lia.
Qed.

(** X12. The 16-bit tick counter never wraps where it is compared: from
    [button_init] or [button_reset], whatever levels are read, in Press it
    stays at or below [LONG_TICKS] and in Release and Repeat at or below
    [SHORT_TICKS] after every tick, so no threshold is missed by overflow.
    (In LongHold, where it is not read, it counts on modulo 2^16.) *)
Theorem ticks_never_wrap (levels : list Z) (h : Button) :
  ticks_bounded h ->
  ticks_bounded (run_state levels h) /\
  (forall a i, ticks_bounded (init_button a i)) /\
  (forall k k', button_reset (Some k) = Some k' -> ticks_bounded k').
Proof.
  intros Hb. split; [|split].
  - revert h Hb. induction levels as [|x xs IH]; intros h Hb; [exact Hb|].
    rewrite run_state_cons. apply IH, ticks_bounded_tick, Hb.
  - intros a i. unfold ticks_bounded. cbn.
    unfold BTN_STATE_IDLE, BTN_STATE_PRESS, BTN_STATE_RELEASE,
      BTN_STATE_REPEAT. repeat split; intros; lia.
  - intros k k' [= <-]. unfold ticks_bounded. cbn.
    unfold BTN_STATE_IDLE, BTN_STATE_PRESS, BTN_STATE_RELEASE,
      BTN_STATE_REPEAT. repeat split; intros; lia.
Qed.

Lemma ticks_never_wrap_witness :
  let g := run_state (replicate 3 1 ++ replicate 3 0 ++ replicate 70 1)
                     (init_button 1 0) in
  state g = BTN_STATE_PRESS /\ ticks g <= LONG_TICKS.
Proof.
  cbv zeta.
  assert (Hb : ticks_bounded (init_button 1 0)).
  { unfold ticks_bounded. cbn.
    unfold BTN_STATE_IDLE, BTN_STATE_PRESS, BTN_STATE_RELEASE,
      BTN_STATE_REPEAT. repeat split; intros; lia. }
  destruct (ticks_never_wrap
    (replicate 3 1 ++ replicate 3 0 ++ replicate 70 1) (init_button 1 0) Hb)
    as ((_ & Hp & _) & _).
  assert (Hs : state (run_state
            (replicate 3 1 ++ replicate 3 0 ++ replicate 70 1)
            (init_button 1 0)) = BTN_STATE_PRESS) by (vm_compute; reflexivity).
  split; [exact Hs | exact (Hp Hs)].
Defined.

Lemma debounce_cnt_range x h :
  0 <= debounce_cnt h < DEBOUNCE_TICKS ->
  0 <= debounce_cnt (debounce x h) < DEBOUNCE_TICKS.
Proof.
  unfold debounce, DEBOUNCE_TICKS. intros Hc.
  destruct (negb _); cbn; [|lia].
  rewrite Z.mod_small by lia.
  destruct (Z.leb_spec 3 (debounce_cnt h + 1)); cbn; lia.
Qed.

(** X13. The debounce counter stays below [DEBOUNCE_TICKS] after every
    tick, for every byte the HAL may return, and the stable level only ever
    moves to the low bit of the sample of that tick. *)
Theorem debounce_cnt_invariant (levels : list Z) (h : Button) :
  0 <= debounce_cnt h < DEBOUNCE_TICKS ->
  0 <= debounce_cnt (run_state levels h) < DEBOUNCE_TICKS /\
  forall x, let g := run_state levels h in
    button_level (tick x g) = button_level g \/
    (button_level (tick x g) = x mod 2 /\ x <> button_level g /\
     debounce_cnt g + 1 = DEBOUNCE_TICKS /\ debounce_cnt (tick x g) = 0).
Proof.
  intros Hc.
  assert (Hinv : 0 <= debounce_cnt (run_state levels h) < DEBOUNCE_TICKS).
  { revert h Hc. induction levels as [|y ys IH]; intros h Hc; [exact Hc|].
    rewrite run_state_cons. apply IH. rewrite tick_debounce_cnt.
    apply debounce_cnt_range, Hc. }
  split; [exact Hinv|]. intros x g. subst g.
  set (g := run_state levels h) in *.
  rewrite tick_button_level, tick_debounce_cnt.
  unfold debounce, DEBOUNCE_TICKS in *.
  destruct (Z.eqb_spec x (button_level g)); cbn; [left; reflexivity|].
  rewrite Z.mod_small by lia.
  destruct (Z.leb_spec 3 (debounce_cnt g + 1)); cbn; [right | left; reflexivity].
  repeat split; [assumption | lia].
Qed.

Lemma debounce_cnt_invariant_witness :
  0 <= debounce_cnt (run_state [7; 255; 1; 0; 3; 3; 2] (init_button 1 0))
    < DEBOUNCE_TICKS.
Proof.
  apply (debounce_cnt_invariant [7; 255; 1; 0; 3; 3; 2] (init_button 1 0)).
  cbn. unfold DEBOUNCE_TICKS. lia.
Defined.

Lemma tick_event_values x h :
  event (tick x h) = event h \/
  In (event (tick x h))
     (map ev_code [BTN_PRESS_DOWN; BTN_PRESS_UP; BTN_SINGLE_CLICK;
                   BTN_DOUBLE_CLICK; BTN_LONG_PRESS_START;
                   BTN_LONG_PRESS_HOLD; BTN_NONE_PRESS]).
Proof.
  unfold tick. rewrite button_handler_eq.
  rewrite <- (debounced_event x h).
  generalize (debounced x h) as d. intros d.
  destruct (state_cases d) as [Hc|[Hc|[Hc|[Hc|[Hc|Hc]]]]];
    try (unfold state_machine; rewrite Hc; cbv iota zeta;
         cbn [ticks repeat set_event];
         repeat match goal with
                | |- context [if ?b then _ else _] => destruct b
                end; cbn; tauto).
  rewrite state_machine_default by exact Hc. left. reflexivity.
Qed.

(** X14. The [event] field is stored for six event kinds and for 'none'
    only: PressRepeat is dispatched to its callback but never stored.  So
    from [button_init], whatever levels are read, [button_get_event] returns
    PressDown, PressUp, SingleClick, DoubleClick, LongPressStart,
    LongPressHold or 'none', and never PressRepeat. *)
Theorem get_event_values (levels : list Z) (a i : Z) :
  let g := run_state levels (init_button a i) in
  In (button_get_event (Some g))
     (map ev_code [BTN_PRESS_DOWN; BTN_PRESS_UP; BTN_SINGLE_CLICK;
                   BTN_DOUBLE_CLICK; BTN_LONG_PRESS_START;
                   BTN_LONG_PRESS_HOLD; BTN_NONE_PRESS]) /\
  button_get_event (Some g) <> ev_code BTN_PRESS_REPEAT.
Proof.
  cbv zeta. cbn [button_get_event].
  assert (Hin : In (event (run_state levels (init_button a i)))
     (map ev_code [BTN_PRESS_DOWN; BTN_PRESS_UP; BTN_SINGLE_CLICK;
                   BTN_DOUBLE_CLICK; BTN_LONG_PRESS_START;
                   BTN_LONG_PRESS_HOLD; BTN_NONE_PRESS])).
  { induction levels as [|x xs IH] using rev_ind.
    - cbn. tauto.
    - rewrite run_state_app. change (run_state [x] ?k) with (tick x k).
      destruct (tick_event_values x (run_state xs (init_button a i)))
        as [-> | H]; assumption. }
  split; [exact Hin|].
  intros E. rewrite E in Hin. cbn in Hin.
  repeat (destruct Hin as [Hin|Hin]; [discriminate|]). exact Hin.
Qed.

(** ** [button_ticks] *)

Lemma button_ticks_from_full (read : loc -> Z) (l : list loc) :
  forall (fuel : nat) (m : gmap loc Button) (p : ptr),
  is_list m p l -> (length l <= fuel)%nat ->
  exists m' logs,
    button_ticks_from fuel read m p = Some (m', logs) /\
    is_list m' p l /\
    (forall c, c ∉ l -> m' !! c = m !! c) /\
    length logs = length l /\
    (forall (j : nat) (a : loc), l !! j = Some a ->
       exists b, m !! a = Some b /\
                 m' !! a = Some (tick (read a) b) /\
                 logs !! j = Some (a, snd (button_handler (read a) b))).
Proof.
  induction l as [|a l IH]; intros fuel m p Hl Hf.
  - cbn in Hl. subst p. exists m, [].
    destruct fuel; cbn; repeat split; try reflexivity;
      intros j a Hj; rewrite lookup_nil in Hj; discriminate.
  - pose proof (is_list_NoDup _ _ _ Hl) as Hnd.
    apply NoDup_cons in Hnd as [Hal _].
    destruct Hl as (-> & b & Hb & Hrest).
    destruct fuel as [|fuel]; [cbn in Hf; lia|].
    cbn [button_ticks_from]. rewrite Hb.
    pose proof (button_handler_next (read a) b) as Hnext.
    destruct (button_handler (read a) b) as [b' log] eqn:Hh.
    cbn in Hnext.
    assert (Htick : tick (read a) b = b')
      by (unfold tick; rewrite Hh; reflexivity).
    destruct (IH fuel (<[a := b']> m) (next b'))
      as (m' & logs & -> & Hl' & Hfr & Hlen & Hall).
    { rewrite Hnext. apply (is_list_frame m); [|exact Hrest].
      intros c Hc. rewrite lookup_insert_ne; [reflexivity|].
      intros ->. contradiction. }
    { cbn in Hf. lia. }
    exists m', ((a, log) :: logs).
    split; [reflexivity|].
    split.
    { split; [reflexivity|]. exists b'.
      split; [rewrite (Hfr a Hal); apply lookup_insert_eq | exact Hl']. }
    split.
    { intros c Hc. apply not_elem_of_cons in Hc as [Hca Hcl].
      rewrite (Hfr c Hcl). apply lookup_insert_ne. congruence. }
    split; [cbn; rewrite Hlen; reflexivity|].
    intros [|j] c Hj; cbn in Hj.
    + injection Hj as <-. exists b. split; [exact Hb|].
      split; [|cbn; rewrite Hh; reflexivity].
      rewrite (Hfr a Hal), lookup_insert_eq, Htick. reflexivity.
    + destruct (Hall j c Hj) as (bc & Hbc & Hmc & Hlc).
      assert (Hca : a <> c).
      { intros ->. apply Hal. apply list_elem_of_lookup. eauto. }
      rewrite lookup_insert_ne in Hbc by exact Hca.
      exists bc. split; [exact Hbc|]. split; [exact Hmc | exact Hlc].
Qed.

(** X15. On an active set [l] and with fuel for its length, one call of
    [button_ticks] runs the handler exactly once for every member, in list
    order (newest registration first), each with the level its own HAL
    returns: the member's object becomes its [tick], the log of the call
    lists the members' logs in that order, objects that are not members are
    untouched, and the active set is the same afterwards. *)
Theorem button_ticks_each_once (read : loc -> Z) (r : Registry)
    (l : list loc) (fuel : nat) :
  active_set r l -> (length l <= fuel)%nat ->
  exists r' logs,
    button_ticks fuel read r = Some (r', logs) /\
    active_set r' l /\
    map fst logs = l /\
    (forall c, c ∉ l -> heap r' !! c = heap r !! c) /\
    (forall (j : nat) (a : loc), l !! j = Some a ->
       exists b, heap r !! a = Some b /\
                 heap r' !! a = Some (tick (read a) b) /\
                 logs !! j = Some (a, snd (button_handler (read a) b))).
Proof.
  intros Hl Hf. unfold button_ticks.
  destruct (button_ticks_from_full read l fuel _ _ Hl Hf)
    as (m' & logs & -> & Hl' & Hfr & Hlen & Hall).
  exists (mkRegistry (head_handle r) m'), logs.
  split; [reflexivity|]. split; [exact Hl'|].
  split; [|split; [exact Hfr | exact Hall]].
  apply list_eq. intros j. rewrite list_lookup_fmap.
  destruct (l !! j) as [a|] eqn:Hj.
  - destruct (Hall j a Hj) as (b & _ & _ & ->). reflexivity.
  - apply lookup_ge_None in Hj.
    rewrite (proj2 (lookup_ge_None logs j)) by lia. reflexivity.
Qed.

Lemma button_ticks_each_once_witness :
  exists r' logs,
    button_ticks 2 (fun a => if decide (a = 2%positive) then 1 else 0)
      sample_registry = Some (r', logs) /\
    map fst logs = [2%positive; 1%positive] /\
    active_set r' [2%positive; 1%positive].
Proof.
  assert (Hl : active_set sample_registry [2%positive; 1%positive]).
  { split; [reflexivity|]. eexists. split; [reflexivity|].
    split; [reflexivity|]. eexists. split; [reflexivity|]. reflexivity. }
  destruct (button_ticks_each_once
    (fun a => if decide (a = 2%positive) then 1 else 0)
    sample_registry _ 2 Hl ltac:(cbn; lia))
    as (r' & logs & Ht & Ha & Hk & _).
  exists r', logs. split; [exact Ht|]. split; [exact Hk | exact Ha].
Defined.

(** ** The per-instance calls and the registry *)

Lemma update_object_keeps_list (op : option Button -> option Button)
    (handle : ptr) (r : Registry) (l : list loc) :
  (forall b b', op (Some b) = Some b' -> next b' = next b) ->
  active_set r l -> active_set (update_object op handle r) l.
Proof.
  intros Hop Hl. unfold update_object.
  destruct handle as [a|]; [|exact Hl].
  destruct (heap r !! a) as [b|] eqn:Hb; [|exact Hl].
  destruct (op (Some b)) as [b'|] eqn:Hb'; [|exact Hl].
  unfold active_set. cbn.
  apply (is_list_frame (heap r)); [|exact Hl].
  intros c _. destruct (decide (a = c)) as [<-|Hne].
  - rewrite lookup_insert_eq, Hb. cbn. rewrite (Hop _ _ Hb'). reflexivity.
  - rewrite lookup_insert_ne by exact Hne. reflexivity.
Qed.

(** X16. [button_reset], [button_attach] and [button_detach] on any
    object, registered or not, leave the active set as it is: they never
    write a link. *)
Theorem api_keeps_membership (handle : ptr) (ev : ButtonEvent)
    (f : option BtnCallback) (r : Registry) (l : list loc) :
  active_set r l ->
  active_set (update_object button_reset handle r) l /\
  active_set (update_object (fun o => button_attach o ev f) handle r) l /\
  active_set (update_object (fun o => button_detach o ev) handle r) l.
Proof.
  intros Hl. split; [|split]; apply update_object_keeps_list; try exact Hl.
  - intros b b' [= <-]. reflexivity.
  - intros b b'. unfold button_attach.
    destruct (_ <=? _); [discriminate|]. intros [= <-]. reflexivity.
  - intros b b'. unfold button_detach.
    destruct (_ <=? _); [discriminate|]. intros [= <-]. reflexivity.
Qed.

Lemma api_keeps_membership_witness :
  active_set (update_object button_reset (Some 2%positive) sample_registry)
             [2%positive; 1%positive].
Proof.
  assert (Hl : active_set sample_registry [2%positive; 1%positive]).
  { split; [reflexivity|]. eexists. split; [reflexivity|].
    split; [reflexivity|]. eexists. split; [reflexivity|]. reflexivity. }
  apply (api_keeps_membership (Some 2%positive) BTN_PRESS_DOWN None
           sample_registry _ Hl).
Defined.

Lemma is_list_cut (m : gmap loc Button) (h : loc) (b' : Button)
    (l1 l2 : list loc) (p : ptr) :
  next b' = None ->
  is_list m p (l1 ++ h :: l2) ->
  is_list (<[h := b']> m) p (l1 ++ [h]).
Proof.
  intros Hn. revert p. induction l1 as [|a l1 IH]; intros p Hl.
  - destruct Hl as (-> & _). split; [reflexivity|].
    exists b'. split; [apply lookup_insert_eq | exact Hn].
  - pose proof (is_list_NoDup _ _ _ Hl) as Hnd.
    cbn in Hnd. apply NoDup_cons in Hnd as [Hal _].
    destruct Hl as (-> & b & Hb & Hrest).
    split; [reflexivity|]. exists b. split; [|apply IH, Hrest].
    rewrite lookup_insert_ne; [exact Hb|].
    intros ->. apply Hal. apply elem_of_app. right. left.
Qed.

(** X17. [button_init] clears the whole object, the link included.  Called
    on a member [h] of the active set [l1 ++ h :: l2] it therefore cuts the
    list after [h]: the active set becomes [l1 ++ [h]], and the members
    [l2], registered before [h], are no longer in it. *)
Theorem init_of_member_cuts_list (r : Registry) (h : loc) (f : positive)
    (a i : Z) (l1 l2 : list loc) :
  active_set r (l1 ++ h :: l2) ->
  let r' := update_object (fun o => button_init o (Some f) a i) (Some h) r in
  active_set r' (l1 ++ [h]) /\
  heap r' !! h = Some (init_button a i) /\
  forall c, c ∈ l2 -> ~ c ∈ l1 ++ [h].
Proof.
  intros Hl r'. subst r'.
  pose proof (is_list_NoDup _ _ _ Hl) as Hnd.
  assert (Hh : exists b, heap r !! h = Some b).
  { unfold active_set in Hl.
    destruct (is_list_suffix _ l1 (h :: l2) _ Hl) as (q & _ & b & Hb & _).
    eauto. }
  destruct Hh as [b Hb]. unfold update_object. rewrite Hb. cbn.
  split; [|split].
  - unfold active_set. cbn. eapply is_list_cut; [reflexivity | exact Hl].
  - apply lookup_insert_eq.
  - intros c Hc Hin. apply NoDup_app in Hnd as (_ & Hdisj & Hnd2).
    apply NoDup_cons in Hnd2 as [Hh2 _].
    apply elem_of_app in Hin as [Hin|Hin].
    + apply (Hdisj c Hin). right. exact Hc.
    + apply list_elem_of_singleton in Hin as ->. contradiction.
Qed.

Lemma init_of_member_cuts_list_witness :
  active_set
    (update_object (fun o => button_init o (Some 1%positive) 1 0)
                   (Some 2%positive) sample_registry)
    ([] ++ [2%positive]).
Proof.
  assert (Hl : active_set sample_registry ([] ++ 2%positive :: [1%positive])).
  { split; [reflexivity|]. eexists. split; [reflexivity|].
    split; [reflexivity|]. eexists. split; [reflexivity|]. reflexivity. }
  apply (init_of_member_cuts_list sample_registry 2%positive 1%positive 1 0
           [] [1%positive] Hl).
Defined.

(** ** Sequences of registry calls *)

Lemma button_start_new (fuel : nat) (h : loc) (b : Button) (r : Registry)
    (l : list loc) :
  active_set r l -> (length l <= fuel)%nat ->
  h ∉ l -> heap r !! h = Some b ->
  let r' := mkRegistry (Some h) (<[h := set_next (head_handle r) b]> (heap r)) in
  button_start fuel (Some h) r = Some (0, r') /\ active_set r' (h :: l).
Proof.
  intros Hl Hf Hnot Hb r'. subst r'. unfold button_start.
  rewrite (start_scan_spec _ l _ h fuel Hl Hf).
  rewrite bool_decide_eq_false_2 by exact Hnot. rewrite Hb.
  split; [reflexivity|].
  unfold active_set. cbn. split; [reflexivity|].
  exists (set_next (head_handle r) b).
  split; [apply lookup_insert_eq|]. cbn.
  apply (is_list_frame (heap r)); [|exact Hl].
  intros a Ha. rewrite lookup_insert_ne; [reflexivity|].
  intros ->. contradiction.
Qed.

Lemma button_start_old (fuel : nat) (h : loc) (r : Registry) (l : list loc) :
  active_set r l -> (length l <= fuel)%nat -> h ∈ l ->
  button_start fuel (Some h) r = Some (-1, r).
Proof.
  intros Hl Hf Hin. unfold button_start.
  rewrite (start_scan_spec _ l _ h fuel Hl Hf).
  rewrite bool_decide_eq_true_2 by exact Hin. reflexivity.
Qed.

Lemma same_but_next_dom (r r' : Registry) :
  same_but_next r r' -> dom (heap r') = dom (heap r).
Proof.
  intros H. apply set_eq. intros c. rewrite !elem_of_dom.
  specialize (H c). unfold is_Some.
  destruct (heap r !! c), (heap r' !! c); try contradiction;
    split; intros [y Hy]; try discriminate; eauto.
Qed.

Lemma button_stop_any (fuel : nat) (h : loc) (r : Registry) (l : list loc) :
  active_set r l -> (length l <= fuel)%nat ->
  exists r',
    button_stop fuel (Some h) r = Some r' /\
    active_set r' (filter (λ a, a ≠ h) l) /\
    dom (heap r') = dom (heap r).
Proof.
  intros Hl Hf. unfold button_stop.
  destruct (stop_loop_spec h l fuel r HeadLink (head_handle r) eq_refl Hl)
    as (r' & p' & Hstop & _ & Hrd & Hlist & _ & _ & Hsbn & _);
    [discriminate | exact Hf |].
  exists r'. split; [exact Hstop|].
  cbn in Hrd. injection Hrd as <-.
  split; [exact Hlist | apply same_but_next_dom, Hsbn].
Qed.

Lemma active_set_length (r : Registry) (l : list loc) :
  active_set r l -> (length l <= size (heap r))%nat.
Proof.
  intros Hl. pose proof (is_list_NoDup _ _ _ Hl) as Hnd.
  assert (Hsub : forall a, a ∈ l -> a ∈ elements (dom (heap r))).
  { unfold active_set in Hl. revert Hl. generalize (head_handle r).
    induction l as [|a l IH]; intros p Hl c Hc.
    - apply not_elem_of_nil in Hc. contradiction.
    - destruct Hl as (-> & b & Hb & Hrest).
      apply NoDup_cons in Hnd as [_ Hnd].
      apply elem_of_cons in Hc as [->|Hc].
      + apply elem_of_elements. eapply elem_of_dom_2, Hb.
      + eapply IH; eassumption. }
  rewrite <- size_dom. unfold size at 1, set_size. cbn.
  apply submseteq_length, NoDup_submseteq; assumption.
Qed.

(** X18. Starting an object that is not a member and stopping it again
    gives back the active set, the head and every other object; the object
    itself is left with a [NULL] link, so when its link was [NULL] before (as
    after [button_init]) the memory is exactly what it was. *)
Theorem start_stop_round_trip (fuel : nat) (h : loc) (b : Button)
    (r : Registry) (l : list loc) :
  active_set r l -> (length l <= fuel)%nat ->
  h ∉ l -> heap r !! h = Some b ->
  exists r1 r2,
    button_start fuel (Some h) r = Some (0, r1) /\
    button_stop fuel (Some h) r1 = Some r2 /\
    head_handle r2 = head_handle r /\
    heap r2 = <[h := set_next None b]> (heap r) /\
    active_set r2 l /\
    (next b = None -> r2 = r).
Proof.
  intros Hl Hf Hnot Hb.
  destruct (button_start_new fuel h b r l Hl Hf Hnot Hb) as [Hstart _].
  eexists. eexists. split; [exact Hstart|].
  assert (Hstop : button_stop fuel (Some h)
            (mkRegistry (Some h) (<[h := set_next (head_handle r) b]> (heap r)))
          = Some (mkRegistry (head_handle r) (<[h := set_next None b]> (heap r)))).
  { unfold button_stop.
    destruct fuel; cbn [stop_loop read_link head_handle heap];
      rewrite decide_True by reflexivity; rewrite lookup_insert_eq;
      cbn; rewrite alter_insert_eq; destruct b; reflexivity. }
  split; [exact Hstop|]. split; [reflexivity|]. split; [reflexivity|].
  split.
  - unfold active_set. cbn. apply (is_list_frame (heap r)); [|exact Hl].
    intros a Ha. rewrite lookup_insert_ne; [reflexivity|].
    intros ->. contradiction.
  - intros Hn. destruct r as [hd m]. cbn in *. f_equal.
    apply insert_id. rewrite Hb. f_equal. destruct b; cbn in *. subst.
    reflexivity.
Qed.

Lemma start_stop_round_trip_witness :
  exists r1,
    button_start 2 (Some 3%positive) sample_registry = Some (0, r1) /\
    button_stop 2 (Some 3%positive) r1 = Some sample_registry.
Proof.
  assert (Hl : active_set sample_registry [2%positive; 1%positive]).
  { split; [reflexivity|]. eexists. split; [reflexivity|].
    split; [reflexivity|]. eexists. split; [reflexivity|]. reflexivity. }
  destruct (start_stop_round_trip 2 3%positive (init_button 1 0)
              sample_registry _ Hl ltac:(cbn; lia))
    as (r1 & r2 & Hs & Hp & _ & _ & _ & Heq).
  - intros Hin. apply elem_of_cons in Hin as [Hin|Hin]; [discriminate|].
    apply elem_of_cons in Hin as [Hin|Hin]; [discriminate|].
    apply not_elem_of_nil in Hin. exact Hin.
  - reflexivity.
  - exists r1. split; [exact Hs|]. rewrite <- (Heq eq_refl). exact Hp.
Defined.

(** X19. Any sequence of [button_start] and [button_stop] calls on objects
    that exist runs to the end with fuel for the number of objects in
    memory: the list never becomes cyclic.  The active set it leaves is what
    the same calls do on a plain list (start: put in front unless present;
    stop: remove), so it never holds an object twice. *)
Theorem registry_refines_list (fuel : nat) (ops : list reg_op)
    (r : Registry) (l : list loc) :
  active_set r l ->
  Forall (fun o => op_handle o ∈ dom (heap r)) ops ->
  (size (heap r) <= fuel)%nat ->
  exists r',
    run_ops fuel ops r = Some r' /\
    active_set r' (foldl (fun k o => list_op o k) l ops) /\
    NoDup (foldl (fun k o => list_op o k) l ops) /\
    dom (heap r') = dom (heap r).
Proof.
  revert r l. induction ops as [|o ops IH]; intros r l Hl Hall Hf.
  - exists r. split; [reflexivity|]. split; [exact Hl|].
    split; [eapply is_list_NoDup, Hl | reflexivity].
  - apply Forall_cons in Hall as [Ho Hall].
    pose proof (active_set_length r l Hl) as Hlen.
    destruct o as [h|h]; cbn [run_ops foldl list_op op_handle] in *.
    + destruct (decide (h ∈ l)) as [Hin|Hnot].
      * rewrite (button_start_old fuel h r l Hl ltac:(lia) Hin).
        apply IH; assumption.
      * apply elem_of_dom in Ho as [b Hb].
        destruct (button_start_new fuel h b r l Hl ltac:(lia) Hnot Hb)
          as [-> Hl'].
        assert (Hdom : dom (<[h := set_next (head_handle r) b]> (heap r))
                       = dom (heap r)).
        { rewrite dom_insert_lookup_L; [reflexivity | eauto]. }
        destruct (IH _ _ Hl') as (r' & Hrun & Ha & Hnd & Hd).
        { cbn. rewrite Hdom. exact Hall. }
        { cbn. rewrite <- size_dom, Hdom, size_dom. exact Hf. }
        exists r'. split; [exact Hrun|]. split; [exact Ha|].
        split; [exact Hnd|]. rewrite Hd. exact Hdom.
    + destruct (button_stop_any fuel h r l Hl ltac:(lia))
        as (r1 & -> & Hl' & Hdom).
      destruct (IH _ _ Hl') as (r' & Hrun & Ha & Hnd & Hd).
      { rewrite Hdom. exact Hall. }
      { rewrite <- size_dom, Hdom, size_dom. exact Hf. }
      exists r'. split; [exact Hrun|]. split; [exact Ha|].
      split; [exact Hnd|]. rewrite Hd. exact Hdom.
Qed.

Lemma registry_refines_list_witness :
  exists r',
    run_ops 3 [OpStart 3%positive; OpStart 1%positive; OpStop 2%positive;
               OpStart 2%positive] sample_registry = Some r' /\
    active_set r' [2%positive; 3%positive; 1%positive].
Proof.
  assert (Hl : active_set sample_registry [2%positive; 1%positive]).
  { split; [reflexivity|]. eexists. split; [reflexivity|].
    split; [reflexivity|]. eexists. split; [reflexivity|]. reflexivity. }
  destruct (registry_refines_list 3
    [OpStart 3%positive; OpStart 1%positive; OpStop 2%positive;
     OpStart 2%positive] sample_registry _ Hl) as (r' & Hrun & Ha & _).
  - repeat (apply Forall_cons; split; [vm_compute; reflexivity|]).
    apply Forall_nil. exact I.
  - vm_compute. lia.
  - exists r'. split; [exact Hrun | exact Ha].
Defined.

(** ** PressDown and PressUp take turns *)

Lemma alternates_app (d : bool) (e1 e2 : list ButtonEvent) :
  alternates d (e1 ++ e2) =
  match alternates d e1 with
  | Some d' => alternates d' e2
  | None => None
  end.
Proof.
  revert d. induction e1 as [|e e1 IH]; intros d; [reflexivity|].
  destruct e, d; cbn; try apply IH; reflexivity.
Qed.

Lemma tick_alternates x h :
  BTN_STATE_IDLE <= state h <= BTN_STATE_LONG_HOLD ->
  alternates (pressedb (state h)) (tick_events x h)
  = Some (pressedb (state (tick x h))).
Proof.
  intros Hv. unfold tick, tick_events. rewrite button_handler_eq.
  rewrite <- (debounced_state x h) in *.
  revert Hv. generalize (debounced x h) as d. intros d Hv.
  destruct (state_cases d) as [Hc|[Hc|[Hc|[Hc|[Hc|Hc]]]]]; [| | | | |contradiction];
    unfold state_machine; rewrite Hc; cbv iota zeta;
    cbn [ticks repeat set_event];
    repeat match goal with
           | |- context [if ?b then _ else _] => destruct b
           end; cbn; rewrite ?Hc; reflexivity.
Qed.

(** X20. In the events of any run from an instance in one of the five
    states, PressDown and PressUp take turns: no PressDown is emitted while
    one is open, no PressUp without one, and a PressDown is open at the end
    exactly when the automaton is in Press, Repeat or LongHold. *)
Theorem press_down_up_alternate (levels : list Z) (h : Button) :
  BTN_STATE_IDLE <= state h <= BTN_STATE_LONG_HOLD ->
  alternates (pressedb (state h)) (concat (run_events levels h))
  = Some (pressedb (state (run_state levels h))).
Proof.
  revert h. induction levels as [|x xs IH]; intros h Hv; [reflexivity|].
  rewrite run_state_cons, run_events_cons. cbn [concat].
  rewrite alternates_app, (tick_alternates x h Hv).
  apply IH, tick_state_valid.
Qed.

Lemma press_down_up_alternate_witness :
  let levels := replicate 3 1 ++ replicate 3 0 ++ replicate 3 1 in
  alternates false (concat (run_events levels (init_button 1 0))) = Some true.
Proof.
  cbv zeta.
  assert (Hv : BTN_STATE_IDLE <= state (init_button 1 0) <= BTN_STATE_LONG_HOLD)
    by (cbn; unfold BTN_STATE_IDLE, BTN_STATE_LONG_HOLD; lia).
  exact (press_down_up_alternate
           (replicate 3 1 ++ replicate 3 0 ++ replicate 3 1)
           (init_button 1 0) Hv).
Defined.
